(** * Tutor_me_YT_assistant: the transcript cache and its request handlers

    A shallow embedding of [main.py]: the video-id extractor, the
    process-wide transcript cache, and the five Flask handlers built on it.

    Python values are embedded as follows.
    - [str] is [string]; a character of the embedding stands for one code
      point, and no statement below depends on the alphabet.
    - JSON-decoded request data is [value].  JSON numbers are embedded by
      their integer value; non-integral numbers are outside the embedding.
    - [dict] is an insertion-ordered association list, as in CPython.
    - The transcript service and the LLM service are outside the program:
      they are oracles over an abstract external state.
    - Exceptions are those deriving from [Exception], the class that every
      [except] clause of the program names. *)

From Stdlib Require Import String Ascii List ZArith Lia Bool Arith.
From Stdlib Require Import DecimalString QArith.
Import ListNotations.
Local Open Scope string_scope.
Local Open Scope list_scope.
Local Open Scope nat_scope.

(** ** Strings *)

(** [s[:n]] on a [str]. *)
Definition slice_to (n : nat) (s : string) : string := substring 0 n s.

(** [sep.join(parts)]. *)
Definition join (sep : string) (parts : list string) : string :=
  String.concat sep parts.

(** [str(n)] on an [int]. *)
Definition str_of_int (n : Z) : string := NilZero.string_of_int (Z.to_int n).

(** [s.startswith(p)], returning the rest of [s] after [p]. *)
Fixpoint strip_prefix (p s : string) : option string :=
  match p with
  | EmptyString => Some s
  | String a p' =>
      match s with
      | EmptyString => None
      | String b s' => if Ascii.eqb a b then strip_prefix p' s' else None
      end
  end.

(** ** The fragment of Python's [re] that the patterns use

    A backtracking matcher in continuation-passing style with one capturing
    group.  [rmatch r s g k] matches [r] at the start of [s]; [g] is the
    text of group 1 so far and [k] receives the unread rest. *)

Module Re.

Inductive regex : Type :=
| Lit (l : string)                 (* literal text *)
| Alt (r1 r2 : regex)              (* r1|r2 *)
| Cat (r1 r2 : regex)              (* r1r2 *)
| Class (p : ascii -> bool)        (* [...] *)
| Repeat (n : nat) (r : regex)     (* r{n} *)
| DotStar                          (* .* (greedy, no newline) *)
| Group (r : regex).               (* (r), group 1 *)

(** The part of [s] read so far when [rest] is what remains. *)
Definition consumed (s rest : string) : string :=
  substring 0 (String.length s - String.length rest) s.

Definition is_newline (c : ascii) : bool := Ascii.eqb c "010"%char.

Section Matcher.
Context {R : Type}.

Fixpoint dot_star (s : string) (g : option string)
         (k : string -> option string -> option R) : option R :=
  match s with
  | EmptyString => k s g
  | String c s' =>
      if is_newline c then k s g
      else match dot_star s' g k with
           | Some x => Some x
           | None => k s g
           end
  end.

Fixpoint rmatch (r : regex) (s : string) (g : option string)
         (k : string -> option string -> option R) : option R :=
  match r with
  | Lit l =>
      match strip_prefix l s with
      | Some s' => k s' g
      | None => None
      end
  | Alt r1 r2 =>
      match rmatch r1 s g k with
      | Some x => Some x
      | None => rmatch r2 s g k
      end
  | Cat r1 r2 => rmatch r1 s g (fun s' g' => rmatch r2 s' g' k)
  | Class p =>
      match s with
      | EmptyString => None
      | String c s' => if p c then k s' g else None
      end
  | Repeat n r' =>
      (fix rep (n : nat) (s : string) (g : option string) : option R :=
         match n with
         | O => k s g
         | S n' => rmatch r' s g (fun s' g' => rep n' s' g')
         end) n s g
  | DotStar => dot_star s g k
  | Group r' => rmatch r' s g (fun s' _ => k s' (Some (consumed s s')))
  end.
End Matcher.

(** A match object, reduced to what the program reads from it:
    [match.group(1)], which is [None] when the group took no part. *)
Definition match_obj : Type := option string.

(** [re.match(r, s)]: a match anchored at the start of [s]. *)
Definition match_at (r : regex) (s : string) : option match_obj :=
  rmatch r s None (fun _ g => Some g).

(** [re.search(r, s)]: the leftmost start position that matches. *)
Fixpoint search (r : regex) (s : string) : option match_obj :=
  match match_at r s with
  | Some m => Some m
  | None =>
      match s with
      | EmptyString => None
      | String _ s' => search r s'
      end
  end.

End Re.

(** ** extract_video_id *)

Definition in_range (lo hi c : ascii) : bool :=
  (Ascii.leb lo c && Ascii.leb c hi)%bool.

(** The character class [[0-9A-Za-z_-]]. *)
Definition id_char (c : ascii) : bool :=
  (in_range "0" "9" c || in_range "A" "Z" c || in_range "a" "z" c
   || Ascii.eqb c "_" || Ascii.eqb c "-")%bool.

(** [([0-9A-Za-z_-]{11})] *)
Definition id_group : Re.regex := Re.Group (Re.Repeat 11 (Re.Class id_char)).

Definition patterns : list Re.regex :=
  [ (* (?:v=|\/)([0-9A-Za-z_-]{11}).* *)
    Re.Cat (Re.Alt (Re.Lit "v=") (Re.Lit "/")) (Re.Cat id_group Re.DotStar);
    (* (?:embed\/)([0-9A-Za-z_-]{11}) *)
    Re.Cat (Re.Lit "embed/") id_group;
    (* (?:watch\?v=)([0-9A-Za-z_-]{11}) *)
    Re.Cat (Re.Lit "watch?v=") id_group ].

(** The [for pattern in patterns] loop. *)
Fixpoint first_match (ps : list Re.regex) (url : string) : option string :=
  match ps with
  | [] => None
  | pattern :: ps' =>
      match Re.search pattern url with
      | Some m => m
      | None => first_match ps' url
      end
  end.

Definition extract_video_id (url : string) : option string :=
  first_match patterns url.

(** ** Python values *)

(** A JSON-decoded value. *)
#[warnings="-register-all"] Inductive value : Type :=
| VNone
| VBool (b : bool)
| VInt (n : Z)
| VStr (s : string)
| VList (l : list value)
| VDict (d : list (string * value)).

(** [bool(v)]. *)
Definition truthy (v : value) : bool :=
  match v with
  | VNone => false
  | VBool b => b
  | VInt n => negb (Z.eqb n 0)
  | VStr s => negb (String.eqb s "")
  | VList l => match l with [] => false | _ => true end
  | VDict d => match d with [] => false | _ => true end
  end.

(** [type(v).__name__]. *)
Definition type_name (v : value) : string :=
  match v with
  | VNone => "NoneType"
  | VBool _ => "bool"
  | VInt _ => "int"
  | VStr _ => "str"
  | VList _ => "list"
  | VDict _ => "dict"
  end.

(** An exception object: its class and [str(e)]. *)
Record exn : Type := Exn { exn_class : string; exn_str : string }.

Definition result (A : Type) : Type := (exn + A)%type.

(** What a dictionary compares keys by.  [True == 1] and [False == 0] in
    Python, with equal hashes, so a [bool] and the [int] it equals are one
    key; lists and dicts have no hash. *)
Inductive hkey : Type :=
| KNone
| KInt (n : Z)
| KStr (s : string).

Definition hkey_eqb (a b : hkey) : bool :=
  match a, b with
  | KNone, KNone => true
  | KInt m, KInt n => Z.eqb m n
  | KStr s, KStr t => String.eqb s t
  | _, _ => false
  end.

Definition key_of (v : value) : option hkey :=
  match v with
  | VNone => Some KNone
  | VBool b => Some (KInt (Z.b2z b))
  | VInt n => Some (KInt n)
  | VStr s => Some (KStr s)
  | VList _ | VDict _ => None
  end.

(** [hash(v)], as a dictionary operation performs it first. *)
Definition hash_key (v : value) : result hkey :=
  match key_of v with
  | Some k => inr k
  | None => inl (Exn "TypeError" ("unhashable type: '" ++ type_name v ++ "'"))
  end.

(** ** Dictionaries keyed by Python values, in insertion order *)

Definition dict : Type := list (value * string).

Definition has_key (k : hkey) (entry : value * string) : bool :=
  match key_of (fst entry) with
  | Some k' => hkey_eqb k' k
  | None => false
  end.

Definition dict_find (k : hkey) (d : dict) : option string :=
  option_map snd (find (has_key k) d).

(** [d[key] = t] once [key] is hashed to [k]: an existing key keeps its
    place and its first spelling, a new key goes last. *)
Fixpoint dict_store (k : hkey) (key : value) (t : string) (d : dict) : dict :=
  match d with
  | [] => [(key, t)]
  | entry :: d' =>
      if has_key k entry then (fst entry, t) :: d'
      else entry :: dict_store k key t d'
  end.

Definition dict_keys (d : dict) : list value := map fst d.
Definition dict_values (d : dict) : list string := map snd d.

(** [sum(len(t) for t in ts)]. *)
Definition sum_len (ts : list string) : nat :=
  fold_left (fun acc t => acc + String.length t) ts 0.

(** [d.get(key)] and [d.get(key, default)] on a decoded JSON object;
    [data.get(key, default)] on any decoded value: only a dict has [get]. *)
Definition lookup (key : string) (d : list (string * value)) : option value :=
  option_map snd (find (fun entry => String.eqb (fst entry) key) d).

Definition get_or (d : list (string * value)) (key : string) (default : value)
  : value :=
  match lookup key d with
  | Some v => v
  | None => default
  end.

Definition py_get (data : value) (key : string) (default : value)
  : result value :=
  match data with
  | VDict d => inr (get_or d key default)
  | _ =>
      inl (Exn "AttributeError"
             ("'" ++ type_name data ++ "' object has no attribute 'get'"))
  end.

(** ** The world outside the program *)

(** One entry of a fetched transcript; only [text] is read. *)
Record TranscriptEntry : Type := {
  text : string;
  start : Q;
  duration : Q
}.

(** The arguments of [anthropic_client.messages.create]. *)
Record LlmRequest : Type := {
  model : string;
  max_tokens : nat;
  temperature : Q;
  system : string;
  messages : list (string * string)     (* role, content *)
}.

(** The reply, reduced to the [text] of each block of [message.content]. *)
Definition Message : Type := list string.

(** The collaborators: the transcript service, the LLM service and the
    interpreter's [repr].  Each service reads and advances an external
    state, so the same call may answer differently later. *)
Class World : Type := {
  Ext : Type;
  get_transcript_api : Ext -> value -> result (list TranscriptEntry) * Ext;
  messages_create : Ext -> LlmRequest -> result Message * Ext;
  py_repr : value -> string
}.

(** [str(v)], as an f-string field formats a JSON-decoded value. *)
Definition py_str `{World} (v : value) : string :=
  match v with
  | VNone => "None"
  | VBool true => "True"
  | VBool false => "False"
  | VInt n => str_of_int n
  | VStr s => s
  | VList _ | VDict _ => py_repr v
  end.

(** What the process does that an observer can see, in order. *)
Inductive event : Type :=
| Print (line : string)
| Fetch (video_id : value)
| LlmCall (req : LlmRequest).

(** An incoming request: [request.json] either raises or yields the
    decoded body. *)
Record Request : Type := { json : result value }.

(** What a handler returns. *)
Record Response : Type := { body : value; status : nat }.

Definition jsonify (obj : list (string * value)) : Response :=
  {| body := VDict obj; status := 200 |}.

(** [return response, code]. *)
Definition with_status (r : Response) (code : nat) : Response :=
  {| body := body r; status := code |}.

(** A field of a JSON response body. *)
Definition field (name : string) (r : Response) : option value :=
  match body r with
  | VDict obj => lookup name obj
  | _ => None
  end.

Definition nl : string := String "010"%char EmptyString.

(** ** Process state and the monad of handler code *)

Section Program.
Context {W : World}.

(** The module-level [transcript_cache], the process environment, the
    state of the outside world, and what has been observed so far
    (oldest first). *)
Record State : Type := {
  transcript_cache : dict;
  environ : list (string * string);
  ext : Ext;
  trace : list event
}.

Definition set_cache (d : dict) (s : State) : State :=
  {| transcript_cache := d; environ := environ s;
     ext := ext s; trace := trace s |}.

Definition set_ext (x : Ext) (s : State) : State :=
  {| transcript_cache := transcript_cache s; environ := environ s;
     ext := x; trace := trace s |}.

Definition emit (e : event) (s : State) : State :=
  {| transcript_cache := transcript_cache s; environ := environ s;
     ext := ext s; trace := trace s ++ [e] |}.

(** Code that reads and writes the process state and either returns or
    raises; what it did to the state before raising stays done. *)
Definition M (A : Type) : Type := State -> result A * State.

Definition ret {A} (a : A) : M A := fun s => (inr a, s).

Definition raise {A} (e : exn) : M A := fun s => (inl e, s).

Definition bind {A B} (m : M A) (f : A -> M B) : M B :=
  fun s =>
    match m s with
    | (inr a, s') => f a s'
    | (inl e, s') => (inl e, s')
    end.

(** [try: m  except Exception as e: h e]. *)
Definition try_except {A} (m : M A) (h : exn -> M A) : M A :=
  fun s =>
    match m s with
    | (inr a, s') => (inr a, s')
    | (inl e, s') => h e s'
    end.

(** An operation that raises or returns without touching the state. *)
Definition lift {A} (r : result A) : M A := fun s => (r, s).

End Program.

Declare Scope py_scope.
Delimit Scope py_scope with py.
Notation "x <- m ;; k" := (bind m (fun x => k))
  (at level 61, m at next level, right associativity) : py_scope.
Notation "m ;; k" := (bind m (fun _ => k))
  (at level 61, right associativity) : py_scope.
Local Open Scope py_scope.

Section Operations.
Context {W : World}.

Definition print (line : string) : M unit :=
  fun s => (inr tt, emit (Print line) s).

(** [os.getenv(name)]. *)
Definition getenv (name : string) : M (option string) :=
  fun s =>
    (inr (option_map snd
            (find (fun entry => String.eqb (fst entry) name) (environ s))), s).

(** [len(transcript_cache)]. *)
Definition cache_len : M nat :=
  fun s => (inr (length (transcript_cache s)), s).

(** [video_id in transcript_cache]. *)
Definition cache_contains (video_id : value) : M bool :=
  k <- lift (hash_key video_id) ;;
  fun s =>
    (inr (match dict_find k (transcript_cache s) with
          | Some _ => true
          | None => false
          end), s).

(** [transcript_cache[video_id]]. *)
Definition cache_getitem (video_id : value) : M string :=
  k <- lift (hash_key video_id) ;;
  fun s =>
    match dict_find k (transcript_cache s) with
    | Some t => (inr t, s)
    | None => (inl (Exn "KeyError" (py_repr video_id)), s)
    end.

(** [transcript_cache[video_id] = t]. *)
Definition cache_setitem (video_id : value) (t : string) : M unit :=
  k <- lift (hash_key video_id) ;;
  fun s =>
    (inr tt, set_cache (dict_store k video_id t (transcript_cache s)) s).

(** [YouTubeTranscriptApi.get_transcript(video_id)]. *)
Definition get_transcript_call (video_id : value)
  : M (list TranscriptEntry) :=
  fun s =>
    let (r, x) := get_transcript_api (ext s) video_id in
    (r, set_ext x (emit (Fetch video_id) s)).

(** [anthropic_client.messages.create(...)]. *)
Definition messages_create_call (req : LlmRequest) : M Message :=
  fun s =>
    let (r, x) := messages_create (ext s) req in
    (r, set_ext x (emit (LlmCall req) s)).

(** [message.content[0].text]. *)
Definition first_text (message : Message) : result string :=
  match message with
  | t :: _ => inr t
  | [] => inl (Exn "IndexError" "list index out of range")
  end.

(** ** get_cached_transcript

    Returns the transcript, or Python's [None]. *)
Definition get_cached_transcript (video_id : value) : M (option string) :=
  hit <- cache_contains video_id ;;
  if hit then
    print ("Using cached transcript for video: " ++ py_str video_id) ;;
    t <- cache_getitem video_id ;;
    ret (Some t)
  else
    try_except
      (print ("Fetching new transcript for video: " ++ py_str video_id) ;;
       transcript_list <- get_transcript_call video_id ;;
       (* Join all transcript segments *)
       let full_transcript := join " " (map text transcript_list) in
       (* Cache the transcript *)
       cache_setitem video_id full_transcript ;;
       print ("Transcript cached successfully for video: "
              ++ py_str video_id) ;;
       ret (Some full_transcript))
      (fun e =>
         print ("Error fetching transcript for " ++ py_str video_id
                ++ ": " ++ exn_str e) ;;
         ret None).

(** [bool(t)] for what [get_cached_transcript] returns. *)
Definition truthy_transcript (t : option string) : bool :=
  match t with
  | Some t => negb (String.eqb t "")
  | None => false
  end.

(** ** The handlers *)

(** GET /health *)
Definition health_check : M Response :=
  key <- getenv "ANTHROPIC_API_KEY" ;;
  n <- cache_len ;;
  ret (jsonify
         [("status", VStr "healthy");
          ("message", VStr "YouTube AI Tutor API is running with Claude");
          ("api_key_configured",
           VBool (match key with
                  | Some k => negb (String.eqb k "")
                  | None => false
                  end));
          ("cached_videos", VInt (Z.of_nat n))]).

Definition system_prompt : string :=
  "You are a helpful AI tutor. Answer questions about the video content clearly and concisely. If the question relates to a specific time in the video, reference that context. Keep responses focused and educational. Use a friendly, encouraging tone.".

(** The one request the program sends to the LLM, for a given content of
    the user turn. *)
Definition llm_request (content : string) : LlmRequest :=
  {| model := "claude-3-5-haiku-20241022";
     max_tokens := 800;
     temperature := 7 # 10;
     system := system_prompt;
     messages := [("user", content)] |}.

(** [f"Video: {video_title}\nCurrent time: {current_time}s"] *)
Definition basic_context (video_title current_time : value) : string :=
  "Video: " ++ py_str video_title ++ nl
  ++ "Current time: " ++ py_str current_time ++ "s".

(** [if video_transcript: context += f"\nTranscript: {video_transcript[:3000]}..."] *)
Definition add_transcript (context : string) (video_transcript : option string)
  : string :=
  match video_transcript with
  | Some t =>
      if truthy_transcript video_transcript then
        (* Use only relevant portion of transcript to control costs *)
        context ++ nl ++ "Transcript: " ++ slice_to 3000 t ++ "..."
      else context
  | None => context
  end.

(** [f"Context: {context}\n\nQuestion: {question}"] *)
Definition user_content (context : string) (question : value) : string :=
  "Context: " ++ context ++ nl ++ nl ++ "Question: " ++ py_str question.

(** The [try] block of [ask_tutor]. *)
Definition ask_tutor_body (request : Request) : M Response :=
  data <- lift (json request) ;;
  question <- lift (py_get data "question" (VStr "")) ;;
  video_title <- lift (py_get data "videoTitle" (VStr "")) ;;
  current_time <- lift (py_get data "currentTime" (VInt 0)) ;;
  video_id <- lift (py_get data "videoId" (VStr "")) ;;
  if negb (truthy question) then
    ret (with_status (jsonify [("error", VStr "Question is required")]) 400)
  else
    print ("Question received: " ++ py_str question) ;;
    print ("Video ID: " ++ py_str video_id) ;;
    print ("Video Title: " ++ py_str video_title) ;;
    (* Create basic context *)
    let context := basic_context video_title current_time in
    (* Get transcript from cache or fetch it *)
    video_transcript <-
      (if truthy video_id then get_cached_transcript video_id
       else ret (Some "")) ;;
    let context := add_transcript context video_transcript in
    (* Get AI response using Claude *)
    message <-
      messages_create_call (llm_request (user_content context question)) ;;
    answer <- lift (first_text message) ;;
    print "AI Response generated successfully" ;;
    cached <-
      (if truthy video_id then cache_contains video_id else ret false) ;;
    ret (jsonify
           [("answer", VStr answer);
            ("videoTitle", video_title);
            ("currentTime", current_time);
            ("cached", VBool cached)]).

(** The [except Exception as e] block of [ask_tutor]. *)
Definition ask_tutor_except (e : exn) : M Response :=
  let error_msg := ("Error processing request: " ++ exn_str e)%string in
  print error_msg ;;
  ret (with_status (jsonify [("error", VStr error_msg)]) 500).

(** POST /api/tutor/ask *)
Definition ask_tutor (request : Request) : M Response :=
  try_except (ask_tutor_body request) ask_tutor_except.

(** The [try] block of [get_transcript]. *)
Definition get_transcript_body (request : Request) : M Response :=
  data <- lift (json request) ;;
  video_id <- lift (py_get data "videoId" (VStr "")) ;;
  if negb (truthy video_id) then
    ret (with_status (jsonify [("error", VStr "Video ID is required")]) 400)
  else
    (* This will cache the transcript if not already cached *)
    transcript <- get_cached_transcript video_id ;;
    match transcript with
    | Some t =>
        if truthy_transcript transcript then
          ret (jsonify
                 [("success", VBool true);
                  ("message", VStr "Transcript cached successfully");
                  ("length", VInt (Z.of_nat (String.length t)))])
        else
          ret (with_status
                 (jsonify
                    [("error", VStr "No transcript available for this video")])
                 404)
    | None =>
        ret (with_status
               (jsonify
                  [("error", VStr "No transcript available for this video")])
               404)
    end.

(** The [except Exception as e] block of [get_transcript]. *)
Definition get_transcript_except (e : exn) : M Response :=
  print ("Error in get_transcript: " ++ exn_str e) ;;
  ret (with_status
         (jsonify [("error", VStr ("Failed to get transcript: " ++ exn_str e))])
         500).

(** POST /api/tutor/transcript *)
Definition get_transcript (request : Request) : M Response :=
  try_except (get_transcript_body request) get_transcript_except.

(** GET /api/tutor/cache-status *)
Definition cache_status : M Response :=
  fun s =>
    let cached_videos := dict_keys (transcript_cache s) in
    let total_size := sum_len (dict_values (transcript_cache s)) in
    (inr (jsonify
            [("cached_videos", VInt (Z.of_nat (length cached_videos)));
             ("video_ids", VList cached_videos);
             ("total_cache_size", VInt (Z.of_nat total_size))]), s).

(** POST /api/tutor/clear-cache *)
Definition clear_cache : M Response :=
  cache_size <- cache_len ;;
  (fun s => (inr tt, set_cache [] s)) ;;
  ret (jsonify
         [("message",
           VStr ("Cache cleared. Removed " ++ str_of_int (Z.of_nat cache_size)
                 ++ " cached transcripts."))]).

(** The [@app.route] table. *)
Inductive route : Type :=
| GetHealth
| PostAsk
| PostTranscript
| GetCacheStatus
| PostClearCache.

Definition dispatch (r : route) (request : Request) : M Response :=
  match r with
  | GetHealth => health_check
  | PostAsk => ask_tutor request
  | PostTranscript => get_transcript request
  | GetCacheStatus => cache_status
  | PostClearCache => clear_cache
  end.

End Operations.

(** ** A scripted world, for running the program on concrete inputs *)

(** The transcript service answers by [transcripts], the LLM by [llm];
    neither has state of its own.  The runs below format no list or dict,
    so [repr] is a placeholder. *)
Definition scripted
  (transcripts : value -> result (list TranscriptEntry))
  (llm : LlmRequest -> result Message) : World :=
  {| Ext := unit;
     get_transcript_api := fun x video_id => (transcripts video_id, x);
     messages_create := fun x req => (llm req, x);
     py_repr := fun _ => "<repr>" |}.

Definition entry (t : string) : TranscriptEntry :=
  {| text := t; start := 0; duration := 1 |}.

(** A service where one video has a two-segment transcript and every other
    id has none. *)
Definition demo_transcripts (video_id : value)
  : result (list TranscriptEntry) :=
  match video_id with
  | VStr "dQw4w9WgXcQ" => inr [entry "never gonna"; entry "give you up"]
  | _ => inl (Exn "TranscriptsDisabled" "no transcript")
  end.

Definition demo_llm (req : LlmRequest) : result Message := inr ["An answer."].

Definition demo_world : World := scripted demo_transcripts demo_llm.

Definition fresh {W : World} (x : Ext) : State :=
  {| transcript_cache := []; environ := []; ext := x; trace := [] |}.

Definition post (data : value) : Request := {| json := inr data |}.

(** The same service with an LLM that is down. *)
Definition llm_down (req : LlmRequest) : result Message :=
  inl (Exn "APIConnectionError" "Connection error.").

Definition offline_world : World := scripted demo_transcripts llm_down.

(** A state of the demo world whose mapping is [d]. *)
Definition holding (d : dict) : State (W := demo_world) :=
  @Build_State demo_world d [] tt [].

(** The demo world, and the offline one, at process start. *)
Definition initial : State (W := demo_world) := @fresh demo_world tt.
Definition initial_offline : State (W := offline_world) :=
  @fresh offline_world tt.

(** [c * n]: a string of [n] copies of one character. *)
Fixpoint copies (n : nat) (c : ascii) : string :=
  match n with
  | O => EmptyString
  | S n' => String c (copies n' c)
  end.

(** A transcript of 3001 characters. *)
Definition long_transcript : string := copies 3001 "a".

(** The body of the end-to-end example: a question about a video the
    transcript service has nothing for. *)
Definition demo_body : list (string * value) :=
  [("question", VStr "What is this about?");
   ("videoId", VStr "abc12345678");
   ("videoTitle", VStr "Demo")].

(** A question about the video that has a transcript. *)
Definition rick_body : list (string * value) :=
  [("question", VStr "What is this about?");
   ("videoId", VStr "dQw4w9WgXcQ")].

(** ** Observations used in the statements *)

(** Every character of [s] satisfies [p]. *)
Definition all_chars (p : ascii -> bool) (s : string) : Prop :=
  forall c, In c (list_ascii_of_string s) -> p c = true.

(** A match of [r] always captures [n] characters of class [p]. *)
Definition captures (p : ascii -> bool) (n : nat) (r : Re.regex) : Prop :=
  forall s m,
    Re.match_at r s = Some m ->
    exists tok, m = Some tok /\ String.length tok = n /\ all_chars p tok.

(** The ids the transcript service was asked for, oldest first. *)
Fixpoint fetched (tr : list event) : list value :=
  match tr with
  | [] => []
  | Fetch video_id :: tr' => video_id :: fetched tr'
  | _ :: tr' => fetched tr'
  end.

(** The requests sent to the LLM, oldest first. *)
Fixpoint llm_calls (tr : list event) : list LlmRequest :=
  match tr with
  | [] => []
  | LlmCall req :: tr' => req :: llm_calls tr'
  | _ :: tr' => llm_calls tr'
  end.

(** A dictionary as the interpreter keeps it: every key is hashable and
    no two keys are equal. *)
Definition wf_dict (d : dict) : Prop :=
  Forall (fun key => key_of key <> None) (dict_keys d)
  /\ NoDup (map key_of (dict_keys d)).

(** [video_id] is a key of [d]. *)
Definition cached_in (d : dict) (video_id : value) : Prop :=
  exists k, key_of video_id = Some k /\ dict_find k d <> None.

Section Observations.
Context {W : World}.

(** What the state looks like after a fetch for [video_id] that the
    service answered with external state [x]. *)
Definition after_fetch (video_id : value) (x : Ext) (s : State) : State :=
  set_ext x
    (emit (Fetch video_id)
       (emit (Print ("Fetching new transcript for video: " ++ py_str video_id))
          s)).

(** The state once [ask_tutor] has logged the question. *)
Definition after_prints (question video_id video_title : value) (s : State)
  : State :=
  emit (Print ("Video Title: " ++ py_str video_title))
    (emit (Print ("Video ID: " ++ py_str video_id))
       (emit (Print ("Question received: " ++ py_str question)) s)).

(** The state once the LLM has been called with [req] and has left the
    outside world at [x]. *)
Definition after_llm (req : LlmRequest) (x : Ext) (s : State) : State :=
  set_ext x (emit (LlmCall req) s).

(** The outcomes of [get_cached_transcript video_id] from state [s]. *)
Inductive lookup_case (video_id : value) (s : State)
  : result (option string) * State -> Prop :=
| Unhashable :
    key_of video_id = None ->
    lookup_case video_id s
      (inl (Exn "TypeError"
              ("unhashable type: '" ++ type_name video_id ++ "'")), s)
| Hit k t :
    key_of video_id = Some k ->
    dict_find k (transcript_cache s) = Some t ->
    lookup_case video_id s
      (inr (Some t),
       emit (Print ("Using cached transcript for video: " ++ py_str video_id))
         s)
| FetchOk k entries x :
    key_of video_id = Some k ->
    dict_find k (transcript_cache s) = None ->
    get_transcript_api (ext s) video_id = (inr entries, x) ->
    lookup_case video_id s
      (inr (Some (join " " (map text entries))),
       emit (Print ("Transcript cached successfully for video: "
                    ++ py_str video_id))
         (set_cache
            (dict_store k video_id (join " " (map text entries))
               (transcript_cache s))
            (after_fetch video_id x s)))
| FetchFail k e x :
    key_of video_id = Some k ->
    dict_find k (transcript_cache s) = None ->
    get_transcript_api (ext s) video_id = (inl e, x) ->
    lookup_case video_id s
      (inr None,
       emit (Print ("Error fetching transcript for " ++ py_str video_id
                    ++ ": " ++ exn_str e))
         (after_fetch video_id x s)).

(** [m] keeps the mapping well formed. *)
Definition keeps_wf {A} (m : M A) : Prop :=
  forall s, wf_dict (transcript_cache s) ->
            wf_dict (transcript_cache (snd (m s))).

End Observations.

(** The states the process can be in: it starts with an empty mapping
    and nothing observed; from then on requests are handled one at a time,
    and the outside world may move on between them. *)
Inductive reachable {W : World} : State -> Prop :=
| reachable_start env x :
    reachable {| transcript_cache := []; environ := env;
                 ext := x; trace := [] |}
| reachable_request s r request :
    reachable s -> reachable (snd (dispatch r request s))
| reachable_world s x :
    reachable s -> reachable (set_ext x s).

(** ** Further observations *)

(** The three rules, by name. *)
Definition rule_v : Re.regex :=
  Re.Cat (Re.Alt (Re.Lit "v=") (Re.Lit "/")) (Re.Cat id_group Re.DotStar).
Definition rule_embed : Re.regex := Re.Cat (Re.Lit "embed/") id_group.
Definition rule_watch : Re.regex := Re.Cat (Re.Lit "watch?v=") id_group.

(** [tok] stands in [url] right after [sep], with [pre] before [sep]:
    a place where the first rule can match. *)
Definition id_at (url pre sep tok : string) : Prop :=
  (sep = "v=" \/ sep = "/")
  /\ String.length tok = 11
  /\ all_chars id_char tok
  /\ exists post, url = (pre ++ sep ++ tok ++ post)%string.

(** Every entry of [d] reads the same in [d']. *)
Definition extends (d d' : dict) : Prop :=
  forall k t, dict_find k d = Some t -> dict_find k d' = Some t.

(** The ids a lookup of [video_id] asks the transcript service for when
    the mapping is [d]. *)
Definition lookup_fetches (video_id : value) (d : dict) : list value :=
  match key_of video_id with
  | Some k =>
      match dict_find k d with
      | Some _ => []
      | None => [video_id]
      end
  | None => []
  end.

(** The transcript service was asked [n] times so far, the LLM [n] times,
    the mapping has [n] entries. *)
Definition fetch_count {W : World} (s : State) : nat :=
  length (fetched (trace s)).
Definition llm_count {W : World} (s : State) : nat :=
  length (llm_calls (trace s)).
Definition cache_size {W : World} (s : State) : nat :=
  length (transcript_cache s).

Section Effects.
Context {W : World}.

(** [m] keeps [P]. *)
Definition keeps (P : State -> Prop) {A} (m : M A) : Prop :=
  forall s, P s -> P (snd (m s)).

(** [m] never lowers the counter [c] and raises it by at most [n]. *)
Definition bounded (c : State -> nat) (n : nat) {A} (m : M A) : Prop :=
  forall s, c s <= c (snd (m s)) /\ c (snd (m s)) <= c s + n.

(** [m] takes every state to one related to it by [R]. *)
Definition moves (R : State -> State -> Prop) {A} (m : M A) : Prop :=
  forall s, R s (snd (m s)).

(** Every key of the mapping is truthy and was fetched at some point. *)
Definition keys_fetched (s : State) : Prop :=
  forall key,
    In key (dict_keys (transcript_cache s)) ->
    truthy key = true /\ In key (fetched (trace s)).

End Effects.



(** A transcript service that fails on the first call and answers from
    then on; its state is the number of calls so far. *)
Definition flaky_world : World :=
  {| Ext := nat;
     get_transcript_api := fun n video_id =>
       (match n with
        | O => inl (Exn "TranscriptsDisabled" "no transcript yet")
        | S _ => inr [entry "hello"; entry "world"]
        end, S n);
     messages_create := fun n req => (inr ["An answer."], n);
     py_repr := fun _ => "<repr>" |}.

(** A body that names a list as video id. *)
Definition list_id_body : list (string * value) :=
  [("question", VStr "What is this about?");
   ("videoId", VList [VStr "dQw4w9WgXcQ"])].

(** A body with a question and nothing else. *)
Definition question_body : list (string * value) :=
  [("question", VStr "What is this about?")].

(** The responses of the two catch-all boundaries, and of the two
    validations. *)
Definition ask_error (e : exn) : Response :=
  with_status
    (jsonify [("error", VStr ("Error processing request: " ++ exn_str e))])
    500.

Definition transcript_error (e : exn) : Response :=
  with_status
    (jsonify [("error", VStr ("Failed to get transcript: " ++ exn_str e))])
    500.

Definition no_transcript : Response :=
  with_status
    (jsonify [("error", VStr "No transcript available for this video")]) 404.

Definition video_id_required : Response :=
  with_status (jsonify [("error", VStr "Video ID is required")]) 400.

(** The success response of [get_transcript] for transcript [t]. *)
Definition transcript_cached (t : string) : Response :=
  jsonify
    [("success", VBool true);
     ("message", VStr "Transcript cached successfully");
     ("length", VInt (Z.of_nat (String.length t)))].

(** The success response of [ask_tutor]. *)
Definition answered (answer : string) (video_title current_time : value)
           (cached : bool) : Response :=
  jsonify
    [("answer", VStr answer);
     ("videoTitle", video_title);
     ("currentTime", current_time);
     ("cached", VBool cached)].

(** The exception a dictionary raises on a key without a hash. *)
Definition unhashable (v : value) : exn :=
  Exn "TypeError" ("unhashable type: '" ++ type_name v ++ "'").

Definition initial_flaky : State (W := flaky_world) := @fresh flaky_world 0.

(** * Properties *)

(** ** The matcher *)

Module ReFacts.
Import Re.

Lemma string_length_app (a b : string) :
  String.length (a ++ b) = String.length a + String.length b.
Proof. induction a as [|c a IH]; simpl; [reflexivity | now rewrite IH]. Qed.

Lemma consumed_app (tok rest : string) : consumed (tok ++ rest) rest = tok.
Proof.
  unfold consumed. rewrite string_length_app.
  replace (String.length tok + String.length rest - String.length rest)
    with (String.length tok) by lia.
  induction tok as [|c tok IH]; simpl.
  - destruct rest; reflexivity.
  - now rewrite IH.
Qed.

Section Continuations.
Context {R : Type}.
Implicit Types (k : string -> option string -> option R).

Lemma lit_inv l s g k x :
  rmatch (Lit l) s g k = Some x -> exists rest, k rest g = Some x.
Proof.
  simpl. destruct (strip_prefix l s) as [rest|]; [eauto | discriminate].
Qed.

Lemma rmatch_cat r1 r2 s g k :
  rmatch (Cat r1 r2) s g k = rmatch r1 s g (fun s' g' => rmatch r2 s' g' k).
Proof. reflexivity. Qed.

Lemma alt_inv r1 r2 s g k x :
  rmatch (Alt r1 r2) s g k = Some x ->
  rmatch r1 s g k = Some x \/ rmatch r2 s g k = Some x.
Proof.
  simpl. destruct (rmatch r1 s g k); [left | right]; assumption.
Qed.

Lemma dot_star_inv s g k x :
  dot_star s g k = Some x -> exists rest, k rest g = Some x.
Proof.
  induction s as [|c s IH]; simpl; [eauto |].
  destruct (is_newline c); [eauto |].
  destruct (dot_star s g k) eqn:E; [| eauto].
  intros H; injection H as ->. now apply IH.
Qed.

(** [[...]{n}] reads exactly [n] characters of the class. *)
Lemma repeat_class_inv p n s g k x :
  rmatch (Repeat n (Class p)) s g k = Some x ->
  exists tok rest,
    s = (tok ++ rest)%string /\ String.length tok = n /\ all_chars p tok
    /\ k rest g = Some x.
Proof.
  revert s. induction n as [|n IH]; intros s H.
  - exists EmptyString, s. repeat split; auto. intros c [].
  - simpl in H. destruct s as [|c s]; [discriminate |].
    destruct (p c) eqn:Hc; [| discriminate].
    destruct (IH s H) as (tok & rest & -> & Hlen & Hall & Hk).
    exists (String c tok), rest. simpl. repeat split; auto.
    intros c' [<- | Hin]; auto.
Qed.

Lemma group_repeat_class_inv p n s g k x :
  rmatch (Group (Repeat n (Class p))) s g k = Some x ->
  exists tok rest,
    String.length tok = n /\ all_chars p tok /\ k rest (Some tok) = Some x.
Proof.
  intros H. change (rmatch (Repeat n (Class p)) s g
                      (fun s' _ => k s' (Some (consumed s s'))) = Some x) in H.
  destruct (repeat_class_inv _ _ _ _ _ _ H)
    as (tok & rest & -> & Hlen & Hall & Hk).
  rewrite consumed_app in Hk. eauto.
Qed.
End Continuations.

Lemma search_captures p n r s m :
  captures p n r -> search r s = Some m ->
  exists tok, m = Some tok /\ String.length tok = n /\ all_chars p tok.
Proof.
  intros Hr. induction s as [|c s IH]; simpl.
  - destruct (match_at r "") eqn:E; [| discriminate].
    intros H; injection H as ->. eauto.
  - destruct (match_at r (String c s)) eqn:E; [| exact IH].
    intros H; injection H as ->. eauto.
Qed.

End ReFacts.

(** ** extract_video_id *)

Lemma patterns_capture :
  Forall (captures id_char 11) patterns.
Proof.
  unfold patterns, id_group.
  repeat constructor; intros s m H; unfold Re.match_at in H;
    rewrite ReFacts.rmatch_cat in H.
  - assert (exists rest,
               Re.rmatch (Re.Cat id_group Re.DotStar) rest None
                 (fun _ g => Some g) = Some m) as [rest H'].
    { apply ReFacts.alt_inv in H as [H | H];
        apply ReFacts.lit_inv in H; exact H. }
    rewrite ReFacts.rmatch_cat in H'.
    apply ReFacts.group_repeat_class_inv in H'
      as (tok & rest' & Hlen & Hall & Hk).
    apply ReFacts.dot_star_inv in Hk as [_ Hk]. injection Hk as <-. eauto.
  - apply ReFacts.lit_inv in H as [rest H].
    apply ReFacts.group_repeat_class_inv in H
      as (tok & rest' & Hlen & Hall & Hk).
    injection Hk as <-. eauto.
  - apply ReFacts.lit_inv in H as [rest H].
    apply ReFacts.group_repeat_class_inv in H
      as (tok & rest' & Hlen & Hall & Hk).
    injection Hk as <-. eauto.
Qed.

(** C8.  The two sample URLs yield the id, a string that is no URL
    yields nothing; and in general the rules are tried in order: the
    result is a token exactly when some rule matches and no earlier rule
    does, and it is then that rule's captured group, 11 characters of
    the id alphabet; the result is None exactly when no rule matches. *)
Theorem extract_video_id_first_match :
  extract_video_id "https://www.youtube.com/watch?v=dQw4w9WgXcQ"
    = Some "dQw4w9WgXcQ"
  /\ extract_video_id "https://youtu.be/dQw4w9WgXcQ" = Some "dQw4w9WgXcQ"
  /\ extract_video_id "not a url" = None
  /\ (forall url tok,
        extract_video_id url = Some tok <->
        exists earlier pattern later,
          patterns = earlier ++ pattern :: later
          /\ Forall (fun p => Re.search p url = None) earlier
          /\ Re.search pattern url = Some (Some tok))
  /\ (forall url tok,
        extract_video_id url = Some tok ->
        String.length tok = 11 /\ all_chars id_char tok)
  /\ (forall url,
        extract_video_id url = None <->
        Forall (fun p => Re.search p url = None) patterns).
Proof.
  assert (Hgen : forall ps url,
             Forall (captures id_char 11) ps ->
             (forall tok,
                 first_match ps url = Some tok <->
                 exists earlier pattern later,
                   ps = earlier ++ pattern :: later
                   /\ Forall (fun p => Re.search p url = None) earlier
                   /\ Re.search pattern url = Some (Some tok))
             /\ (first_match ps url = None <->
                 Forall (fun p => Re.search p url = None) ps)).
  { intros ps url Hcap. induction Hcap as [|p ps Hp Hps [IHs IHn]].
    - split; [intros tok; split |]; simpl.
      + discriminate.
      + intros (earlier & pattern & later & E & _). now destruct earlier.
      + split; constructor.
    - simpl. destruct (Re.search p url) as [m|] eqn:E.
      + destruct (ReFacts.search_captures _ _ _ _ _ Hp E)
          as (tok0 & -> & _ & _).
        split; [intros tok; split |].
        * intros H; injection H as ->. exists [], p, ps. auto.
        * intros (earlier & pattern & later & Eq & Hnone & Hm).
          destruct earlier as [|p' earlier]; simpl in Eq;
            injection Eq as -> Eq.
          -- congruence.
          -- inversion Hnone; congruence.
        * split; [discriminate |]. intros H; inversion H; congruence.
      + split; [intros tok; split |].
        * intros H. apply IHs in H as (earlier & pattern & later & -> & Hn & Hm).
          exists (p :: earlier), pattern, later. auto.
        * intros (earlier & pattern & later & Eq & Hnone & Hm).
          destruct earlier as [|p' earlier]; simpl in Eq;
            injection Eq as -> Eq.
          -- congruence.
          -- apply IHs. exists earlier, pattern, later.
             inversion Hnone; auto.
        * rewrite IHn. split; intros H; [auto | now inversion H]. }
  assert (Htok : forall url tok,
             extract_video_id url = Some tok ->
             String.length tok = 11 /\ all_chars id_char tok).
  { intros url tok H.
    apply (Hgen patterns url patterns_capture) in H
      as (earlier & pattern & later & Eq & _ & Hm).
    assert (Hp : captures id_char 11 pattern).
    { pose proof patterns_capture as Hall. rewrite Eq in Hall.
      apply Forall_app in Hall as [_ Hall]. now inversion Hall. }
    destruct (ReFacts.search_captures _ _ _ _ _ Hp Hm) as (t & Et & Hl & Hc).
    injection Et as <-. auto. }
  split; [reflexivity |]. split; [reflexivity |]. split; [reflexivity |].
  split; [| split; [exact Htok |]].
  - intros url tok. apply (Hgen patterns url patterns_capture).
  - intros url. apply (Hgen patterns url patterns_capture).
Qed.

(** ** Dictionaries *)

Lemma hkey_eqb_eq (a b : hkey) : hkey_eqb a b = true <-> a = b.
Proof.
  destruct a, b; simpl; split; intros H;
    try discriminate; try reflexivity.
  - apply Z.eqb_eq in H. now subst.
  - injection H as ->. apply Z.eqb_refl.
  - apply String.eqb_eq in H. now subst.
  - injection H as ->. apply String.eqb_refl.
Qed.

Lemma has_key_iff (k : hkey) (entry : value * string) :
  has_key k entry = true <-> key_of (fst entry) = Some k.
Proof.
  unfold has_key. destruct (key_of (fst entry)) as [k'|].
  - rewrite hkey_eqb_eq. split; congruence.
  - split; discriminate.
Qed.

Lemma dict_find_none (k : hkey) (d : dict) :
  dict_find k d = None <-> ~ In (Some k) (map key_of (dict_keys d)).
Proof.
  unfold dict_find, dict_keys. induction d as [|entry d IH]; simpl.
  - tauto.
  - destruct (has_key k entry) eqn:E; simpl.
    + apply has_key_iff in E. split; [discriminate | tauto].
    + rewrite IH. split; [| tauto].
      intros Hn [Hk | Hin]; [| tauto].
      apply has_key_iff in Hk. congruence.
Qed.

Lemma dict_find_in (k : hkey) (d : dict) :
  dict_find k d <> None <->
  exists key, In key (dict_keys d) /\ key_of key = Some k.
Proof.
  split.
  - unfold dict_find. destruct (find (has_key k) d) as [entry|] eqn:E.
    + intros _. apply find_some in E as [Hin Hk].
      exists (fst entry). split; [now apply in_map | now apply has_key_iff].
    + intros H. now destruct H.
  - intros (key & Hin & Hk) Hn. apply dict_find_none in Hn. apply Hn.
    rewrite <- Hk. now apply in_map.
Qed.

(** Storing under a key that is absent appends the entry. *)
Lemma dict_store_absent (k : hkey) (key : value) (t : string) (d : dict) :
  dict_find k d = None -> dict_store k key t d = d ++ [(key, t)].
Proof.
  unfold dict_find. induction d as [|entry d IH]; simpl; [reflexivity |].
  destruct (has_key k entry); simpl; [discriminate |].
  intros H. now rewrite IH.
Qed.

Lemma dict_find_store_same (k : hkey) (key : value) (t : string) (d : dict) :
  key_of key = Some k -> dict_find k (dict_store k key t d) = Some t.
Proof.
  intros Hk. unfold dict_find.
  induction d as [|entry d IH]; cbn [dict_store find].
  - rewrite (proj2 (has_key_iff k (key, t)) Hk). reflexivity.
  - destruct (has_key k entry) eqn:E; cbn [find].
    + apply has_key_iff in E.
      rewrite (proj2 (has_key_iff k (fst entry, t)) E). reflexivity.
    + now rewrite E.
Qed.

Lemma has_key_other (k k' : hkey) (entry : value * string) :
  key_of (fst entry) = Some k -> k' <> k -> has_key k' entry = false.
Proof.
  intros Hk Hne. apply not_true_is_false. rewrite has_key_iff. congruence.
Qed.

Lemma dict_find_store_other (k k' : hkey) (key : value) (t : string)
      (d : dict) :
  key_of key = Some k -> k' <> k ->
  dict_find k' (dict_store k key t d) = dict_find k' d.
Proof.
  intros Hk Hne. unfold dict_find.
  induction d as [|entry d IH]; cbn [dict_store find].
  - rewrite (has_key_other k k' (key, t) Hk Hne). reflexivity.
  - destruct (has_key k entry) eqn:E; cbn [find].
    + apply has_key_iff in E.
      rewrite (has_key_other k k' (fst entry, t) E Hne).
      rewrite (has_key_other k k' entry E Hne). reflexivity.
    + destruct (has_key k' entry); [reflexivity | exact IH].
Qed.

Lemma dict_store_keys (k : hkey) (key : value) (t : string) (d : dict) :
  map key_of (dict_keys (dict_store k key t d))
  = match dict_find k d with
    | Some _ => map key_of (dict_keys d)
    | None => map key_of (dict_keys d) ++ [key_of key]
    end.
Proof.
  unfold dict_find, dict_keys. induction d as [|entry d IH]; simpl.
  - reflexivity.
  - destruct (has_key k entry) eqn:E; simpl; [reflexivity |].
    rewrite IH. now destruct (find (has_key k) d).
Qed.

Lemma wf_dict_nil : wf_dict [].
Proof. split; constructor. Qed.

Lemma wf_dict_store (k : hkey) (key : value) (t : string) (d : dict) :
  key_of key = Some k -> wf_dict d -> wf_dict (dict_store k key t d).
Proof.
  intros Hk [Hh Hnd]. split.
  - apply Forall_forall. intros v Hv.
    apply (in_map key_of) in Hv. rewrite dict_store_keys in Hv.
    assert (In (key_of v) (map key_of (dict_keys d)) \/ key_of v = Some k)
      as [Hin | Hv'].
    { destruct (dict_find k d); [now left |].
      apply in_app_or in Hv as [Hv | [Hv | []]]; [now left | right].
      congruence. }
    + apply in_map_iff in Hin as (v' & Ev & Hin).
      rewrite Forall_forall in Hh. rewrite <- Ev. now apply Hh.
    + congruence.
  - rewrite dict_store_keys. destruct (dict_find k d) eqn:E; [exact Hnd |].
    apply dict_find_none in E. rewrite Hk.
    apply NoDup_app;
      [exact Hnd | constructor; [intros [] | constructor] |].
    intros x Hx [<- | []]. contradiction.
Qed.

(** Python's left-to-right [sum] adds up the lengths. *)
Lemma sum_len_list_sum (ts : list string) :
  sum_len ts = list_sum (map String.length ts).
Proof.
  unfold sum_len.
  assert (H : forall acc,
             fold_left (fun a t => a + String.length t) ts acc
             = acc + list_sum (map String.length ts)).
  { induction ts as [|t ts IH]; intros acc; simpl; [lia |].
    rewrite IH. lia. }
  apply H.
Qed.

(** ** Traces *)

Lemma fetched_app (a b : list event) : fetched (a ++ b) = fetched a ++ fetched b.
Proof.
  induction a as [|[line|v|req] a IH]; simpl; auto. now rewrite IH.
Qed.

Lemma llm_calls_app (a b : list event) :
  llm_calls (a ++ b) = llm_calls a ++ llm_calls b.
Proof.
  induction a as [|[line|v|req] a IH]; simpl; auto. now rewrite IH.
Qed.

(** ** get_cached_transcript, case by case *)

Section Lookup.
Context {W : World}.

Lemma lookup_unhashable (video_id : value) (s : State) :
  key_of video_id = None ->
  get_cached_transcript video_id s
  = (inl (Exn "TypeError"
            ("unhashable type: '" ++ type_name video_id ++ "'")), s).
Proof.
  intros Hk. unfold get_cached_transcript, cache_contains, bind, lift, hash_key.
  now rewrite Hk.
Qed.

Lemma lookup_hit (video_id : value) (k : hkey) (t : string) (s : State) :
  key_of video_id = Some k ->
  dict_find k (transcript_cache s) = Some t ->
  get_cached_transcript video_id s
  = (inr (Some t),
     emit (Print ("Using cached transcript for video: " ++ py_str video_id)) s).
Proof.
  intros Hk Hf.
  unfold get_cached_transcript, cache_contains, cache_getitem, bind, lift,
    hash_key, print, ret.
  rewrite Hk, Hf. cbn [transcript_cache emit]. now rewrite Hf.
Qed.

Lemma lookup_fetch_ok (video_id : value) (k : hkey) (s : State)
      (entries : list TranscriptEntry) (x : Ext) :
  key_of video_id = Some k ->
  dict_find k (transcript_cache s) = None ->
  get_transcript_api (ext s) video_id = (inr entries, x) ->
  let full_transcript := join " " (map text entries) in
  get_cached_transcript video_id s
  = (inr (Some full_transcript),
     emit (Print ("Transcript cached successfully for video: "
                  ++ py_str video_id))
       (set_cache (dict_store k video_id full_transcript (transcript_cache s))
          (after_fetch video_id x s))).
Proof.
  intros Hk Hf Hapi.
  unfold get_cached_transcript, cache_contains, cache_setitem,
    get_transcript_call, try_except, bind, lift, hash_key, print, ret.
  rewrite Hk, Hf. cbn [ext emit]. rewrite Hapi. reflexivity.
Qed.

Lemma lookup_fetch_fail (video_id : value) (k : hkey) (s : State)
      (e : exn) (x : Ext) :
  key_of video_id = Some k ->
  dict_find k (transcript_cache s) = None ->
  get_transcript_api (ext s) video_id = (inl e, x) ->
  get_cached_transcript video_id s
  = (inr None,
     emit (Print ("Error fetching transcript for " ++ py_str video_id
                  ++ ": " ++ exn_str e))
       (after_fetch video_id x s)).
Proof.
  intros Hk Hf Hapi.
  unfold get_cached_transcript, cache_contains, cache_setitem,
    get_transcript_call, try_except, bind, lift, hash_key, print, ret.
  rewrite Hk, Hf. cbn [ext emit]. rewrite Hapi. reflexivity.
Qed.

Lemma lookup_cases (video_id : value) (s : State) :
  lookup_case video_id s (get_cached_transcript video_id s).
Proof.
  destruct (key_of video_id) as [k|] eqn:Hk.
  - destruct (dict_find k (transcript_cache s)) as [t|] eqn:Hf.
    + rewrite (lookup_hit _ _ _ _ Hk Hf). now apply Hit with (k := k).
    + destruct (get_transcript_api (ext s) video_id) as [[e|entries] x] eqn:Ha.
      * rewrite (lookup_fetch_fail _ _ _ _ _ Hk Hf Ha).
        now apply FetchFail with (k := k).
      * rewrite (lookup_fetch_ok _ _ _ _ _ Hk Hf Ha).
        now apply FetchOk with (k := k).
  - rewrite (lookup_unhashable _ _ Hk). now apply Unhashable.
Qed.

End Lookup.

(** Projections of an updated state, and the service calls in its trace. *)
Ltac state_simpl :=
  cbn [trace ext transcript_cache environ emit set_ext set_cache after_fetch];
  repeat rewrite ?fetched_app, ?llm_calls_app;
  cbn [fetched llm_calls];
  repeat rewrite ?app_nil_r.

Section Cache.
Context {W : World}.

(** A lookup of a key that is absent asks the service exactly once,
    whatever the service answers. *)
Lemma lookup_miss_fetches (video_id : value) (k : hkey) (s : State) :
  key_of video_id = Some k ->
  dict_find k (transcript_cache s) = None ->
  fetched (trace (snd (get_cached_transcript video_id s)))
  = fetched (trace s) ++ [video_id].
Proof.
  intros Hk Hf.
  destruct (get_transcript_api (ext s) video_id) as [[e|entries] x] eqn:Ha.
  - rewrite (lookup_fetch_fail _ _ _ _ _ Hk Hf Ha). cbn [snd]. now state_simpl.
  - rewrite (lookup_fetch_ok _ _ _ _ _ Hk Hf Ha). cbn [snd]. now state_simpl.
Qed.

(** C1.  A key that is present is answered from the mapping: the stored
    transcript comes back, the service is not asked, and neither the
    mapping nor the outside world changes.  Hence, when the service would
    answer a fetch for the id, two lookups in a row return the same
    transcript; the first asks the service at most once and the second
    not at all. *)
Theorem cache_idempotence (video_id : value) (k : hkey) (s : State) :
  key_of video_id = Some k ->
  (forall t,
      dict_find k (transcript_cache s) = Some t ->
      exists s1,
        get_cached_transcript video_id s = (inr (Some t), s1)
        /\ fetched (trace s1) = fetched (trace s)
        /\ transcript_cache s1 = transcript_cache s
        /\ ext s1 = ext s)
  /\ (forall entries x,
         get_transcript_api (ext s) video_id = (inr entries, x) ->
         exists t s1 s2,
           get_cached_transcript video_id s = (inr (Some t), s1)
           /\ get_cached_transcript video_id s1 = (inr (Some t), s2)
           /\ length (fetched (trace s1)) <= length (fetched (trace s)) + 1
           /\ fetched (trace s2) = fetched (trace s1)
           /\ transcript_cache s2 = transcript_cache s1
           /\ ext s2 = ext s1).
Proof.
  intros Hk.
  assert (Hhit : forall s0 t,
             dict_find k (transcript_cache s0) = Some t ->
             exists s1,
               get_cached_transcript video_id s0 = (inr (Some t), s1)
               /\ fetched (trace s1) = fetched (trace s0)
               /\ transcript_cache s1 = transcript_cache s0
               /\ ext s1 = ext s0).
  { intros s0 t Hf. eexists. split; [exact (lookup_hit _ _ _ _ Hk Hf) |].
    now state_simpl. }
  split; [apply Hhit |].
  intros entries x Ha.
  destruct (dict_find k (transcript_cache s)) as [t|] eqn:Hf.
  - destruct (Hhit s t Hf) as (s1 & R1 & F1 & C1 & E1).
    assert (Hf1 : dict_find k (transcript_cache s1) = Some t) by congruence.
    destruct (Hhit s1 t Hf1) as (s2 & R2 & F2 & C2 & E2).
    exists t, s1, s2. repeat split; auto. rewrite F1. lia.
  - pose proof (lookup_fetch_ok _ _ _ _ _ Hk Hf Ha) as R1. cbv zeta in R1.
    set (t := join " " (map text entries)) in *.
    match type of R1 with _ = (_, ?st) => set (s1 := st) in * end.
    assert (Hf1 : dict_find k (transcript_cache s1) = Some t).
    { subst s1. state_simpl. now apply dict_find_store_same. }
    destruct (Hhit s1 t Hf1) as (s2 & R2 & F2 & C2 & E2).
    exists t, s1, s2. repeat split; auto.
    subst s1. state_simpl. rewrite length_app. simpl. lia.
Qed.

(** C2.  When the id is absent and the service fails, the lookup
    returns None and leaves the mapping as it was, so the id is not among
    the [video_ids] that [cache_status] reports; the service was asked
    once, and the next lookup of the same id asks it again. *)
Theorem failed_fetch_not_cached (video_id : value) (k : hkey) (s : State)
        (e : exn) (x : Ext) :
  key_of video_id = Some k ->
  dict_find k (transcript_cache s) = None ->
  get_transcript_api (ext s) video_id = (inl e, x) ->
  exists s1,
    get_cached_transcript video_id s = (inr None, s1)
    /\ transcript_cache s1 = transcript_cache s
    /\ (exists resp ids,
           cache_status s1 = (inr resp, s1)
           /\ field "video_ids" resp = Some (VList ids)
           /\ forall v, In v ids -> key_of v <> Some k)
    /\ fetched (trace s1) = fetched (trace s) ++ [video_id]
    /\ fetched (trace (snd (get_cached_transcript video_id s1)))
       = fetched (trace s1) ++ [video_id].
Proof.
  intros Hk Hf Ha. eexists.
  split; [exact (lookup_fetch_fail _ _ _ _ _ Hk Hf Ha) |].
  split; [reflexivity |]. split; [| split].
  - eexists. exists (dict_keys (transcript_cache s)).
    split; [reflexivity |]. split; [reflexivity |].
    intros v Hv Hkv. apply dict_find_none in Hf. apply Hf.
    rewrite <- Hkv. now apply in_map.
  - now state_simpl.
  - now apply lookup_miss_fetches with (k := k).
Qed.

(** C7.  When the id is absent and the service answers with entries,
    the lookup returns their text fields joined by single spaces in the
    order given, and the mapping it leaves behind is the old one with
    that transcript appended under the id; other keys read as before. *)
Theorem fetch_joins_and_stores (video_id : value) (k : hkey) (s : State)
        (entries : list TranscriptEntry) (x : Ext) :
  key_of video_id = Some k ->
  dict_find k (transcript_cache s) = None ->
  get_transcript_api (ext s) video_id = (inr entries, x) ->
  exists s1,
    get_cached_transcript video_id s
    = (inr (Some (String.concat " " (map text entries))), s1)
    /\ transcript_cache s1
       = transcript_cache s
           ++ [(video_id, String.concat " " (map text entries))]
    /\ dict_find k (transcript_cache s1)
       = Some (String.concat " " (map text entries))
    /\ (forall k', k' <> k ->
          dict_find k' (transcript_cache s1)
          = dict_find k' (transcript_cache s))
    /\ fetched (trace s1) = fetched (trace s) ++ [video_id].
Proof.
  intros Hk Hf Ha. eexists.
  split; [exact (lookup_fetch_ok _ _ _ _ _ Hk Hf Ha) |].
  state_simpl. repeat split.
  - now apply dict_store_absent.
  - now apply dict_find_store_same.
  - intros k' Hne. now apply dict_find_store_other.
Qed.

End Cache.

(** ** The handlers *)

Section Handlers.
Context {W : World}.

(** A lookup reads the mapping and the outside world, not the trace. *)
Lemma lookup_same_store (video_id : value) (s s' : State) :
  transcript_cache s = transcript_cache s' -> ext s = ext s' ->
  fst (get_cached_transcript video_id s)
  = fst (get_cached_transcript video_id s')
  /\ transcript_cache (snd (get_cached_transcript video_id s))
     = transcript_cache (snd (get_cached_transcript video_id s'))
  /\ ext (snd (get_cached_transcript video_id s))
     = ext (snd (get_cached_transcript video_id s')).
Proof.
  intros Hc He.
  destruct (key_of video_id) as [k|] eqn:Hk.
  - destruct (dict_find k (transcript_cache s)) as [t|] eqn:Hf.
    + rewrite (lookup_hit _ _ _ s Hk Hf).
      rewrite Hc in Hf. rewrite (lookup_hit _ _ _ s' Hk Hf).
      now state_simpl.
    + destruct (get_transcript_api (ext s) video_id) as [[e|entries] x] eqn:Ha.
      * rewrite (lookup_fetch_fail _ _ s _ _ Hk Hf Ha).
        rewrite Hc in Hf. rewrite He in Ha.
        rewrite (lookup_fetch_fail _ _ s' _ _ Hk Hf Ha).
        now state_simpl.
      * rewrite (lookup_fetch_ok _ _ s _ _ Hk Hf Ha).
        rewrite Hc in Hf. rewrite He in Ha.
        rewrite (lookup_fetch_ok _ _ s' _ _ Hk Hf Ha).
        state_simpl. now rewrite Hc.
  - rewrite !(lookup_unhashable _ _ Hk). auto.
Qed.

(** A lookup sends nothing to the LLM. *)
Lemma lookup_no_llm (video_id : value) (s : State) :
  llm_calls (trace (snd (get_cached_transcript video_id s)))
  = llm_calls (trace s).
Proof.
  destruct (lookup_cases video_id s); cbn [snd]; now state_simpl.
Qed.

(** The mapping stays well formed across a lookup. *)
Lemma lookup_wf (video_id : value) (s : State) :
  wf_dict (transcript_cache s) ->
  wf_dict (transcript_cache (snd (get_cached_transcript video_id s))).
Proof.
  intros Hwf.
  destruct (lookup_cases video_id s); cbn [snd]; state_simpl; auto.
  now apply wf_dict_store.
Qed.

(** A [try] whose [except] block itself returns always returns. *)
Lemma try_except_returns {A} (m : M A) (h : exn -> M A) (s : State) :
  (forall e s0, exists a s1, h e s0 = (inr a, s1)) ->
  exists a s1, try_except m h s = (inr a, s1).
Proof.
  intros Hh. unfold try_except.
  destruct (m s) as [[e|a] s0]; [apply Hh | eauto].
Qed.

Lemma ask_tutor_except_returns (e : exn) (s : State) :
  ask_tutor_except e s
  = (inr (with_status
            (jsonify
               [("error", VStr ("Error processing request: " ++ exn_str e))])
            500),
     emit (Print ("Error processing request: " ++ exn_str e)) s).
Proof. reflexivity. Qed.

(** What the catch-all boundary of [ask_tutor] does with the outcome of
    its body. *)
Lemma ask_tutor_boundary (request : Request) (s : State) :
  ask_tutor request s
  = match ask_tutor_body request s with
    | (inr resp, s1) => (inr resp, s1)
    | (inl e, s1) =>
        (inr (with_status
                (jsonify
                   [("error",
                     VStr ("Error processing request: " ++ exn_str e))])
                500),
         emit (Print ("Error processing request: " ++ exn_str e)) s1)
    end.
Proof.
  unfold ask_tutor, try_except.
  destruct (ask_tutor_body request s) as [[e|resp] s1]; reflexivity.
Qed.

End Handlers.

Section Ask.
Context {W : World}.

(** [ask_tutor_body] on an object body, with the propagation of
    exceptions spelled out. *)
Lemma ask_tutor_body_dict (request : Request) (d : list (string * value))
      (s : State) :
  json request = inr (VDict d) ->
  let question := get_or d "question" (VStr "") in
  let video_title := get_or d "videoTitle" (VStr "") in
  let current_time := get_or d "currentTime" (VInt 0) in
  let video_id := get_or d "videoId" (VStr "") in
  ask_tutor_body request s
  = if negb (truthy question) then
      (inr (with_status (jsonify [("error", VStr "Question is required")]) 400),
       s)
    else
      match (if truthy video_id then get_cached_transcript video_id
             else ret (Some ""))
              (after_prints question video_id video_title s) with
      | (inl e, s1) => (inl e, s1)
      | (inr video_transcript, s1) =>
          let req :=
            llm_request
              (user_content
                 (add_transcript (basic_context video_title current_time)
                    video_transcript)
                 question) in
          match messages_create (ext s1) req with
          | (inl e, x) => (inl e, after_llm req x s1)
          | (inr [], x) =>
              (inl (Exn "IndexError" "list index out of range"),
               after_llm req x s1)
          | (inr (answer :: _), x) =>
              let s3 :=
                emit (Print "AI Response generated successfully")
                  (after_llm req x s1) in
              match (if truthy video_id then cache_contains video_id
                     else ret false) s3 with
              | (inl e, s4) => (inl e, s4)
              | (inr cached, s4) =>
                  (inr (jsonify
                          [("answer", VStr answer);
                           ("videoTitle", video_title);
                           ("currentTime", current_time);
                           ("cached", VBool cached)]), s4)
              end
          end
      end.
Proof.
  intros Hj. cbv zeta.
  unfold ask_tutor_body. unfold bind at 1. unfold lift at 1. rewrite Hj.
  cbn [py_get]. unfold bind at 1 2 3 4. unfold lift at 1 2 3 4.
  destruct (negb (truthy (get_or d "question" (VStr "")))); [reflexivity |].
  unfold bind at 1 2 3. unfold print at 1 2 3.
  fold (after_prints (get_or d "question" (VStr ""))
          (get_or d "videoId" (VStr "")) (get_or d "videoTitle" (VStr "")) s).
  unfold bind at 1.
  destruct ((if truthy (get_or d "videoId" (VStr ""))
             then get_cached_transcript (get_or d "videoId" (VStr ""))
             else ret (Some "")) (after_prints _ _ _ s))
    as [[e|video_transcript] s1]; [reflexivity |].
  unfold bind at 1. unfold messages_create_call at 1. fold (after_llm).
  destruct (messages_create (ext s1) _) as [[e|[|answer message]] x];
    try reflexivity.
Qed.

End Ask.

(** ** Slicing *)

Lemma slice_to_split (n : nat) (t : string) :
  n <= String.length t ->
  exists head tail,
    t = (head ++ tail)%string /\ String.length head = n
    /\ slice_to n t = head.
Proof.
  unfold slice_to. revert t. induction n as [|n IH]; intros t Hn.
  - exists EmptyString, t. repeat split. now destruct t.
  - destruct t as [|c t]; simpl in Hn; [lia |].
    destruct (IH t) as (head & tail & -> & Hlen & Hs); [lia |].
    exists (String c head), tail. simpl. rewrite Hs, Hlen. auto.
Qed.

Section AskFacts.
Context {W : World}.

Lemma cache_contains_run (video_id : value) (k : hkey) (s : State) :
  key_of video_id = Some k ->
  cache_contains video_id s
  = (inr (match dict_find k (transcript_cache s) with
          | Some _ => true
          | None => false
          end), s).
Proof.
  intros Hk. unfold cache_contains, bind, lift, hash_key. now rewrite Hk.
Qed.

Lemma cache_contains_state (video_id : value) (s : State) :
  snd (cache_contains video_id s) = s.
Proof.
  unfold cache_contains, bind, lift, hash_key.
  now destruct (key_of video_id).
Qed.

(** A body that is not a JSON object never reaches the validation:
    decoding or [get] raises and the boundary answers 500, without calling
    the LLM. *)
Lemma ask_non_object_body (request : Request) (s : State) :
  (forall d, json request <> inr (VDict d)) ->
  exists resp s',
    ask_tutor request s = (inr resp, s')
    /\ status resp = 500
    /\ llm_calls (trace s') = llm_calls (trace s).
Proof.
  intros Hd. rewrite ask_tutor_boundary.
  unfold ask_tutor_body. unfold bind at 1. unfold lift at 1.
  destruct (json request) as [e|data].
  { do 2 eexists. split; [reflexivity |]. split; [reflexivity | now state_simpl]. }
  unfold bind at 1. unfold lift at 1.
  destruct data; try (do 2 eexists; split; [reflexivity |];
                      split; [reflexivity | now state_simpl]).
  now destruct (Hd d).
Qed.

(** C4, by kind of body.  A request has no question when its decoded
    body, if it is a JSON object, has no question field or a falsy one
    (empty string, null, 0, false, empty list or object).  For such a
    request the LLM is not called; and when the body is a JSON object,
    the handler answers 400 with an error message and leaves the state
    untouched. *)
Theorem ask_without_question (request : Request) (s : State) :
  (forall d q,
      json request = inr (VDict d) ->
      lookup "question" d = Some q -> truthy q = false) ->
  llm_calls (trace (snd (ask_tutor request s))) = llm_calls (trace s)
  /\ (forall d,
         json request = inr (VDict d) ->
         ask_tutor request s
         = (inr (with_status
                   (jsonify [("error", VStr "Question is required")]) 400),
            s)).
Proof.
  intros Hq.
  assert (H400 : forall d,
             json request = inr (VDict d) ->
             ask_tutor request s
             = (inr (with_status
                       (jsonify [("error", VStr "Question is required")])
                       400), s)).
  { intros d Hj.
    assert (Hf : truthy (get_or d "question" (VStr "")) = false).
    { unfold get_or. destruct (lookup "question" d) as [q|] eqn:E;
        [exact (Hq d q Hj E) | reflexivity]. }
    rewrite ask_tutor_boundary, (ask_tutor_body_dict _ _ _ Hj). cbv zeta.
    now rewrite Hf. }
  split; [| exact H400].
  destruct (json request) as [e|data] eqn:Hj.
  - destruct (ask_non_object_body request s) as (resp & s' & -> & _ & Hn);
      [rewrite Hj; discriminate | exact Hn].
  - destruct data;
      try (destruct (ask_non_object_body request s) as (resp & s' & -> & _ & Hn);
           [rewrite Hj; discriminate | exact Hn]).
    now rewrite (H400 d eq_refl).
Qed.

(** C3.  When the lookup for the request's video id yields a transcript
    of more than 3000 characters, the one request sent to the LLM carries
    a context whose transcript line is exactly the first 3000 characters
    of the transcript followed by three dots; the rest is not sent. *)
Theorem transcript_truncated (request : Request) (d : list (string * value))
        (s s1 : State) (t : string) :
  let question := get_or d "question" (VStr "") in
  let video_title := get_or d "videoTitle" (VStr "") in
  let current_time := get_or d "currentTime" (VInt 0) in
  let video_id := get_or d "videoId" (VStr "") in
  json request = inr (VDict d) ->
  truthy question = true ->
  truthy video_id = true ->
  get_cached_transcript video_id s = (inr (Some t), s1) ->
  3000 < String.length t ->
  exists head tail,
    t = (head ++ tail)%string
    /\ String.length head = 3000
    /\ tail <> ""
    /\ llm_calls (trace (snd (ask_tutor request s)))
       = llm_calls (trace s)
           ++ [llm_request
                 (user_content
                    (basic_context video_title current_time ++ nl
                     ++ "Transcript: " ++ head ++ "...")
                    question)].
Proof.
  intros question video_title current_time video_id Hj Hq Hv Hl Hlen.
  destruct (slice_to_split 3000 t) as (head & tail & Ht & Hh & Hs); [lia |].
  exists head, tail. split; [exact Ht |]. split; [exact Hh |].
  split.
  { intros ->. rewrite Ht, ReFacts.string_length_app, Hh in Hlen.
    simpl in Hlen. lia. }
  rewrite ask_tutor_boundary, (ask_tutor_body_dict _ _ _ Hj). cbv zeta.
  fold question video_title current_time video_id. rewrite Hq, Hv.
  cbn [negb].
  set (s0 := after_prints question video_id video_title s).
  destruct (lookup_same_store video_id s s0 eq_refl eq_refl) as (Hr & _ & _).
  pose proof (lookup_no_llm video_id s0) as Hn.
  destruct (get_cached_transcript video_id s0) as [r s1'] eqn:E.
  rewrite Hl in Hr. cbn [fst snd] in Hr, Hn. subst r.
  assert (Hn0 : llm_calls (trace s1') = llm_calls (trace s)).
  { rewrite Hn. subst s0. unfold after_prints. now state_simpl. }
  assert (Hctx : add_transcript (basic_context video_title current_time)
                   (Some t)
                 = (basic_context video_title current_time ++ nl
                    ++ "Transcript: " ++ head ++ "...")%string).
  { unfold add_transcript, truthy_transcript. rewrite Hs.
    destruct t; [simpl in Hlen; lia | reflexivity]. }
  rewrite Hctx.
  destruct (messages_create (ext s1') _) as [[e|[|answer message]] x];
    cbn [snd]; unfold after_llm; state_simpl; try now rewrite Hn0.
  pose proof (cache_contains_state video_id
                (emit (Print "AI Response generated successfully")
                   (after_llm
                      (llm_request
                         (user_content
                            (basic_context video_title current_time ++ nl
                             ++ "Transcript: " ++ head ++ "...") question))
                      x s1'))) as Hst.
  unfold after_llm in Hst.
  destruct (cache_contains video_id _) as [[e|cached] s4];
    cbn [snd] in *; subst s4; state_simpl; now rewrite Hn0.
Qed.

End AskFacts.

Section Boundaries.
Context {W : World}.

Lemma get_transcript_boundary (request : Request) (s : State) :
  get_transcript request s
  = match get_transcript_body request s with
    | (inr resp, s1) => (inr resp, s1)
    | (inl e, s1) =>
        (inr (with_status
                (jsonify
                   [("error", VStr ("Failed to get transcript: " ++ exn_str e))])
                500),
         emit (Print ("Error in get_transcript: " ++ exn_str e)) s1)
    end.
Proof.
  unfold get_transcript, try_except.
  destruct (get_transcript_body request s) as [[e|resp] s1]; reflexivity.
Qed.

(** [get_transcript_body] on an object body that names a video. *)
Lemma get_transcript_body_dict (request : Request) (d : list (string * value))
      (s : State) :
  json request = inr (VDict d) ->
  truthy (get_or d "videoId" (VStr "")) = true ->
  get_transcript_body request s
  = match get_cached_transcript (get_or d "videoId" (VStr "")) s with
    | (inl e, s1) => (inl e, s1)
    | (inr transcript, s1) =>
        (inr (match transcript with
              | Some t =>
                  if truthy_transcript transcript then
                    jsonify
                      [("success", VBool true);
                       ("message", VStr "Transcript cached successfully");
                       ("length", VInt (Z.of_nat (String.length t)))]
                  else
                    with_status
                      (jsonify
                         [("error",
                           VStr "No transcript available for this video")])
                      404
              | None =>
                  with_status
                    (jsonify
                       [("error",
                         VStr "No transcript available for this video")])
                    404
              end), s1)
    end.
Proof.
  intros Hj Hv.
  unfold get_transcript_body. unfold bind at 1. unfold lift at 1. rewrite Hj.
  cbn [py_get]. unfold bind at 1. unfold lift at 1. rewrite Hv. cbn [negb].
  unfold bind at 1.
  destruct (get_cached_transcript _ s) as [[e|[t|]] s1]; try reflexivity.
  destruct (truthy_transcript (Some t)); reflexivity.
Qed.

(** No exception leaves a handler: each returns a response. *)
Lemma dispatch_returns (r : route) (request : Request) (s : State) :
  exists resp s', dispatch r request s = (inr resp, s').
Proof.
  destruct r; cbn [dispatch].
  - unfold health_check, bind, getenv, cache_len, ret. eauto.
  - apply try_except_returns. intros e s0.
    rewrite ask_tutor_except_returns. eauto.
  - apply try_except_returns. intros e s0.
    unfold get_transcript_except, bind, print, ret. eauto.
  - unfold cache_status. eauto.
  - unfold clear_cache, bind, cache_len, ret. eauto.
Qed.

(** A failing fetch does not leave the lookup as an exception. *)
Lemma lookup_absorbs_fetch_failure (video_id : value) (k : hkey) (s : State)
      (e : exn) (x : Ext) :
  key_of video_id = Some k ->
  dict_find k (transcript_cache s) = None ->
  get_transcript_api (ext s) video_id = (inl e, x) ->
  fst (get_cached_transcript video_id s) = inr None
  /\ ext (snd (get_cached_transcript video_id s)) = x
  /\ transcript_cache (snd (get_cached_transcript video_id s))
     = transcript_cache s.
Proof.
  intros Hk Hf Ha. rewrite (lookup_fetch_fail _ _ _ _ _ Hk Hf Ha).
  now state_simpl.
Qed.

(** C9, boundary by boundary.  Every handler returns a response for every request
    and state.  Whatever exception the body of [ask_tutor] or
    [get_transcript] raises is turned into a 500 response that carries
    [str(e)]; an exception of the LLM call is such an exception.  An
    exception of the transcript service is not: the lookup absorbs it and
    returns None, so [get_transcript] answers 404 and [ask_tutor] goes on
    to call the LLM without a transcript line. *)
Theorem handlers_catch_all :
  (forall r request s, exists resp s', dispatch r request s = (inr resp, s'))
  /\ (forall request s e s1,
         ask_tutor_body request s = (inl e, s1) ->
         ask_tutor request s
         = (inr (with_status
                   (jsonify
                      [("error",
                        VStr ("Error processing request: " ++ exn_str e))])
                   500),
            emit (Print ("Error processing request: " ++ exn_str e)) s1))
  /\ (forall request s e s1,
         get_transcript_body request s = (inl e, s1) ->
         get_transcript request s
         = (inr (with_status
                   (jsonify
                      [("error",
                        VStr ("Failed to get transcript: " ++ exn_str e))])
                   500),
            emit (Print ("Error in get_transcript: " ++ exn_str e)) s1))
  /\ (forall request d s video_transcript s1 e x,
         let question := get_or d "question" (VStr "") in
         let video_title := get_or d "videoTitle" (VStr "") in
         let current_time := get_or d "currentTime" (VInt 0) in
         let video_id := get_or d "videoId" (VStr "") in
         json request = inr (VDict d) ->
         truthy question = true ->
         (if truthy video_id then get_cached_transcript video_id
          else ret (Some "")) (after_prints question video_id video_title s)
         = (inr video_transcript, s1) ->
         messages_create (ext s1)
           (llm_request
              (user_content
                 (add_transcript (basic_context video_title current_time)
                    video_transcript)
                 question))
         = (inl e, x) ->
         exists s',
           ask_tutor request s
           = (inr (with_status
                     (jsonify
                        [("error",
                          VStr ("Error processing request: " ++ exn_str e))])
                     500), s'))
  /\ (forall request d s k e x,
         let video_id := get_or d "videoId" (VStr "") in
         json request = inr (VDict d) ->
         truthy video_id = true ->
         key_of video_id = Some k ->
         dict_find k (transcript_cache s) = None ->
         get_transcript_api (ext s) video_id = (inl e, x) ->
         exists s',
           get_transcript request s
           = (inr (with_status
                     (jsonify
                        [("error",
                          VStr "No transcript available for this video")])
                     404), s'))
  /\ (forall request d s k e x,
         let question := get_or d "question" (VStr "") in
         let video_title := get_or d "videoTitle" (VStr "") in
         let current_time := get_or d "currentTime" (VInt 0) in
         let video_id := get_or d "videoId" (VStr "") in
         json request = inr (VDict d) ->
         truthy question = true ->
         truthy video_id = true ->
         key_of video_id = Some k ->
         dict_find k (transcript_cache s) = None ->
         get_transcript_api (ext s) video_id = (inl e, x) ->
         llm_calls (trace (snd (ask_tutor request s)))
         = llm_calls (trace s)
             ++ [llm_request
                   (user_content (basic_context video_title current_time)
                      question)]
         /\ forall answer message x',
             messages_create x
               (llm_request
                  (user_content (basic_context video_title current_time)
                     question))
             = (inr (answer :: message), x') ->
             exists s',
               ask_tutor request s
               = (inr (jsonify
                         [("answer", VStr answer);
                          ("videoTitle", video_title);
                          ("currentTime", current_time);
                          ("cached", VBool false)]), s')).
Proof.
  split; [exact dispatch_returns |].
  split; [intros request s e s1 H; now rewrite ask_tutor_boundary, H |].
  split; [intros request s e s1 H; now rewrite get_transcript_boundary, H |].
  split; [| split].
  - intros request d s vt s1 e x question video_title current_time video_id
      Hj Hq Hl Hm.
    rewrite ask_tutor_boundary, (ask_tutor_body_dict _ _ _ Hj). cbv zeta.
    fold question video_title current_time video_id.
    rewrite Hq. cbn [negb]. rewrite Hl, Hm. eauto.
  - intros request d s k e x video_id Hj Hv Hk Hf Ha.
    rewrite get_transcript_boundary, (get_transcript_body_dict _ _ _ Hj Hv).
    fold video_id. rewrite (lookup_fetch_fail _ _ _ _ _ Hk Hf Ha). eauto.
  - intros request d s k e x question video_title current_time video_id
      Hj Hq Hv Hk Hf Ha.
    rewrite ask_tutor_boundary, (ask_tutor_body_dict _ _ _ Hj). cbv zeta.
    fold question video_title current_time video_id.
    rewrite Hq, Hv. cbn [negb].
    set (s0 := after_prints question video_id video_title s).
    assert (Hf0 : dict_find k (transcript_cache s0) = None) by exact Hf.
    assert (Ha0 : get_transcript_api (ext s0) video_id = (inl e, x))
      by exact Ha.
    rewrite (lookup_fetch_fail _ _ _ _ _ Hk Hf0 Ha0).
    cbn [add_transcript]. state_simpl.
    set (req := llm_request
                  (user_content (basic_context video_title current_time)
                     question)).
    set (s1 := emit _ (after_fetch video_id x s0)).
    assert (Hn : llm_calls (trace s1) = llm_calls (trace s)).
    { subst s1 s0. unfold after_prints. now state_simpl. }
    assert (Hc : dict_find k (transcript_cache s1) = None) by exact Hf.
    split.
    + destruct (messages_create x req) as [[e'|[|answer message]] x'];
        cbn [snd]; unfold after_llm; state_simpl; try now rewrite Hn.
      rewrite (cache_contains_run _ _ _ Hk). cbn [snd]. state_simpl.
      now rewrite Hn.
    + intros answer message x' Hm. rewrite Hm.
      rewrite (cache_contains_run _ _ _ Hk). unfold after_llm. state_simpl.
      rewrite Hc. eauto.
Qed.

End Boundaries.

Section CachedFlag.
Context {W : World}.

(** A response of [ask_tutor] that has a [cached] field is the success
    response: the lookup returned, and the field is the membership test on
    the mapping the lookup left behind, which is the final one. *)
Lemma ask_cached_field_inv (request : Request) (d : list (string * value))
      (s s' : State) (resp : Response) (b : bool)
      (question video_title video_id : value) :
  question = get_or d "question" (VStr "") ->
  video_title = get_or d "videoTitle" (VStr "") ->
  video_id = get_or d "videoId" (VStr "") ->
  json request = inr (VDict d) ->
  ask_tutor request s = (inr resp, s') ->
  field "cached" resp = Some (VBool b) ->
  (truthy video_id = false /\ b = false)
  \/ (truthy video_id = true
      /\ exists k video_transcript s1,
          key_of video_id = Some k
          /\ get_cached_transcript video_id
               (after_prints question video_id video_title s)
             = (inr video_transcript, s1)
          /\ transcript_cache s' = transcript_cache s1
          /\ b = match dict_find k (transcript_cache s1) with
                 | Some _ => true
                 | None => false
                 end).
Proof.
  intros Eq Et Ev Hj Hrun Hfield.
  rewrite ask_tutor_boundary, (ask_tutor_body_dict _ _ _ Hj) in Hrun.
  cbv zeta in Hrun. rewrite <- Eq, <- Et, <- Ev in Hrun.
  destruct (negb (truthy question)).
  { injection Hrun as <- <-. discriminate Hfield. }
  set (s0 := after_prints question video_id video_title s) in *.
  destruct (truthy video_id) eqn:Hv.
  - right. split; [reflexivity |].
    pose proof (lookup_cases video_id s0) as Hcase.
    destruct (get_cached_transcript video_id s0) as [[e|vt] s1] eqn:El.
    { injection Hrun as <- <-. discriminate Hfield. }
    assert (Hk : exists k, key_of video_id = Some k).
    { inversion Hcase; eauto. }
    destruct Hk as [k Hk]. exists k, vt, s1.
    split; [exact Hk |]. split; [reflexivity |].
    destruct (messages_create (ext s1) _) as [[e|[|answer message]] x];
      try (injection Hrun as <- <-; discriminate Hfield).
    rewrite (cache_contains_run _ _ _ Hk) in Hrun.
    injection Hrun as <- <-. unfold after_llm. state_simpl.
    split; [reflexivity |].
    cbv [field jsonify body] in Hfield. cbn in Hfield.
    unfold after_llm in Hfield. cbn in Hfield.
    now injection Hfield as <-.
  - left. split; [reflexivity |].
    unfold ret at 1 in Hrun.
    destruct (messages_create (ext s0) _) as [[e|[|answer message]] x];
      try (injection Hrun as <- <-; discriminate Hfield).
    unfold ret in Hrun. injection Hrun as <- <-.
    cbn in Hfield. now injection Hfield as <-.
Qed.

(** C10.  On an object body, the [cached] field of a response is true
    exactly when the request carries a video id that is a key of the
    mapping as the request leaves it.  So a request whose transcript is
    fetched for the first time, successfully, during that request reports
    [cached: true]; and [cached: false] is reported only when no video id
    is given or the id was absent and its fetch failed. *)
Theorem cached_reflects_state_after_lookup
        (request : Request) (d : list (string * value)) (s : State) :
  let question := get_or d "question" (VStr "") in
  let video_title := get_or d "videoTitle" (VStr "") in
  let current_time := get_or d "currentTime" (VInt 0) in
  let video_id := get_or d "videoId" (VStr "") in
  json request = inr (VDict d) ->
  (forall resp s' b,
      ask_tutor request s = (inr resp, s') ->
      field "cached" resp = Some (VBool b) ->
      (b = true <->
       truthy video_id = true /\ cached_in (transcript_cache s') video_id))
  /\ (forall k entries x,
         truthy video_id = true ->
         key_of video_id = Some k ->
         dict_find k (transcript_cache s) = None ->
         get_transcript_api (ext s) video_id = (inr entries, x) ->
         (forall resp s' b,
             ask_tutor request s = (inr resp, s') ->
             field "cached" resp = Some (VBool b) -> b = true)
         /\ (forall answer message x',
                truthy question = true ->
                messages_create x
                  (llm_request
                     (user_content
                        (add_transcript
                           (basic_context video_title current_time)
                           (Some (join " " (map text entries))))
                        question))
                = (inr (answer :: message), x') ->
                exists s',
                  ask_tutor request s
                  = (inr (jsonify
                            [("answer", VStr answer);
                             ("videoTitle", video_title);
                             ("currentTime", current_time);
                             ("cached", VBool true)]), s')))
  /\ (forall resp s',
         ask_tutor request s = (inr resp, s') ->
         field "cached" resp = Some (VBool false) ->
         truthy video_id = false
         \/ exists k e x,
             key_of video_id = Some k
             /\ dict_find k (transcript_cache s) = None
             /\ get_transcript_api (ext s) video_id = (inl e, x)).
Proof.
  intros question video_title current_time video_id Hj.
  assert (Hinv : forall resp s' b,
             ask_tutor request s = (inr resp, s') ->
             field "cached" resp = Some (VBool b) ->
             (truthy video_id = false /\ b = false)
             \/ (truthy video_id = true
                 /\ exists k video_transcript s1,
                     key_of video_id = Some k
                     /\ get_cached_transcript video_id
                          (after_prints question video_id video_title s)
                        = (inr video_transcript, s1)
                     /\ transcript_cache s' = transcript_cache s1
                     /\ b = match dict_find k (transcript_cache s1) with
                            | Some _ => true
                            | None => false
                            end)).
  { intros resp s' b.
    exact (ask_cached_field_inv request d s s' resp b question video_title
             video_id eq_refl eq_refl eq_refl Hj). }
  set (s0 := after_prints question video_id video_title s) in *.
  split; [| split].
  - intros resp s' b Hrun Hfield.
    destruct (Hinv _ _ _ Hrun Hfield)
      as [[Hv ->] | (Hv & k & vt & s1 & Hk & Hl & Hc & ->)].
    + split; [discriminate | intros [H _]; congruence].
    + rewrite Hc. unfold cached_in. split.
      * intros Hb. split; [exact Hv |]. exists k. split; [exact Hk |].
        destruct (dict_find k (transcript_cache s1)); congruence.
      * intros (_ & k' & Hk' & Hin).
        assert (k' = k) by congruence. subst k'.
        destruct (dict_find k (transcript_cache s1)); congruence.
  - intros k entries x Hv Hk Hf Ha.
    assert (Hl : get_cached_transcript video_id s0
                 = (inr (Some (join " " (map text entries))),
                    emit (Print ("Transcript cached successfully for video: "
                                 ++ py_str video_id))
                      (set_cache
                         (dict_store k video_id (join " " (map text entries))
                            (transcript_cache s0))
                         (after_fetch video_id x s0)))).
    { apply lookup_fetch_ok; assumption. }
    split.
    + intros resp s' b Hrun Hfield.
      destruct (Hinv _ _ _ Hrun Hfield)
        as [[Hv' _] | (_ & k' & vt & s1 & Hk' & Hl' & _ & ->)];
        [congruence |].
      rewrite Hl in Hl'. injection Hl' as <- <-.
      assert (k' = k) by congruence. subst k'. state_simpl.
      now rewrite (dict_find_store_same _ _ _ _ Hk).
    + intros answer message x' Hq Hm.
      rewrite ask_tutor_boundary, (ask_tutor_body_dict _ _ _ Hj). cbv zeta.
      fold question video_title current_time video_id.
      rewrite Hq, Hv. cbn [negb]. fold s0. rewrite Hl.
      state_simpl. rewrite Hm.
      rewrite (cache_contains_run _ _ _ Hk). unfold after_llm. state_simpl.
      rewrite (dict_find_store_same _ _ _ _ Hk). eauto.
  - intros resp s' Hrun Hfield.
    destruct (Hinv _ _ _ Hrun Hfield)
      as [[Hv _] | (Hv & k & vt & s1 & Hk & Hl & _ & Hb)];
      [now left | right].
    pose proof (lookup_cases video_id s0) as Hcase. rewrite Hl in Hcase.
    inversion Hcase as [| k0 t Hk0 Hf0 | k0 entries x Hk0 Hf0 Ha0
                        | k0 e x Hk0 Hf0 Ha0]; subst;
      assert (k0 = k) by congruence; subst k0.
    + cbn [transcript_cache emit] in Hb. rewrite Hf0 in Hb. discriminate.
    + cbn [transcript_cache emit set_cache] in Hb.
      rewrite (dict_find_store_same _ _ _ _ Hk) in Hb. discriminate.
    + exists k, e, x. auto.
Qed.

End CachedFlag.

(** ** An invariant of the mapping *)

Section Invariant.
Context {W : World}.

Lemma keeps_wf_ret {A} (a : A) : keeps_wf (ret a).
Proof. intros s H. exact H. Qed.

Lemma keeps_wf_lift {A} (r : result A) : keeps_wf (lift r).
Proof. intros s H. exact H. Qed.

Lemma keeps_wf_print (line : string) : keeps_wf (print line).
Proof. intros s H. exact H. Qed.

Lemma keeps_wf_bind {A B} (m : M A) (f : A -> M B) :
  keeps_wf m -> (forall a, keeps_wf (f a)) -> keeps_wf (bind m f).
Proof.
  intros Hm Hf s H. unfold bind. specialize (Hm s H).
  destruct (m s) as [[e|a] s1]; cbn [snd] in *; [exact Hm |].
  now apply Hf.
Qed.

Lemma keeps_wf_try_except {A} (m : M A) (h : exn -> M A) :
  keeps_wf m -> (forall e, keeps_wf (h e)) -> keeps_wf (try_except m h).
Proof.
  intros Hm Hh s H. unfold try_except. specialize (Hm s H).
  destruct (m s) as [[e|a] s1]; cbn [snd] in *; [now apply Hh | exact Hm].
Qed.

Lemma keeps_wf_cache_contains (video_id : value) :
  keeps_wf (cache_contains video_id).
Proof. intros s H. now rewrite cache_contains_state. Qed.

Lemma keeps_wf_lookup (video_id : value) :
  keeps_wf (get_cached_transcript video_id).
Proof. intros s H. now apply lookup_wf. Qed.

Lemma keeps_wf_llm (req : LlmRequest) : keeps_wf (messages_create_call req).
Proof.
  intros s H. unfold messages_create_call.
  now destruct (messages_create (ext s) req).
Qed.

Lemma keeps_wf_dispatch (r : route) (request : Request) :
  keeps_wf (dispatch r request).
Proof.
  destruct r; cbn [dispatch].
  - intros s H. exact H.
  - apply keeps_wf_try_except.
    + unfold ask_tutor_body.
      repeat (apply keeps_wf_bind; [apply keeps_wf_lift | intros ?]).
      destruct (negb (truthy _)); [apply keeps_wf_ret |].
      repeat (apply keeps_wf_bind; [apply keeps_wf_print | intros _]).
      apply keeps_wf_bind.
      { destruct (truthy _); [apply keeps_wf_lookup | apply keeps_wf_ret]. }
      intros vt. apply keeps_wf_bind; [apply keeps_wf_llm | intros message].
      apply keeps_wf_bind; [apply keeps_wf_lift | intros answer].
      apply keeps_wf_bind; [apply keeps_wf_print | intros _].
      apply keeps_wf_bind; [| intros cached; apply keeps_wf_ret].
      destruct (truthy _); [apply keeps_wf_cache_contains | apply keeps_wf_ret].
    + intros e. unfold ask_tutor_except.
      apply keeps_wf_bind; [apply keeps_wf_print | intros _; apply keeps_wf_ret].
  - apply keeps_wf_try_except.
    + unfold get_transcript_body.
      repeat (apply keeps_wf_bind; [apply keeps_wf_lift | intros ?]).
      destruct (negb (truthy _)); [apply keeps_wf_ret |].
      apply keeps_wf_bind; [apply keeps_wf_lookup | intros [t|]].
      * destruct (truthy_transcript _); apply keeps_wf_ret.
      * apply keeps_wf_ret.
    + intros e. unfold get_transcript_except.
      apply keeps_wf_bind; [apply keeps_wf_print | intros _; apply keeps_wf_ret].
  - intros s H. exact H.
  - intros s H. exact wf_dict_nil.
Qed.

(** In every state the process can reach, the keys of the mapping are
    hashable and pairwise different. *)
Lemma reachable_wf (s : State) : reachable s -> wf_dict (transcript_cache s).
Proof.
  induction 1 as [env x | s r request _ IH | s x _ IH].
  - exact wf_dict_nil.
  - now apply keeps_wf_dispatch.
  - exact IH.
Qed.

End Invariant.

Section Status.
Context {W : World}.

(** C6.  [cache_status] returns without changing the state.  Its
    [cached_videos] is the number of entries of the mapping, its
    [video_ids] lists the keys of the mapping (an id is cached exactly
    when a listed key equals it), and its [total_cache_size] is the sum of
    the lengths of the stored transcripts.  In every reachable state the
    listed keys are pairwise different, so the count is the number of
    cached ids. *)
Theorem cache_status_snapshot (s : State) :
  exists resp,
    cache_status s = (inr resp, s)
    /\ status resp = 200
    /\ field "cached_videos" resp
       = Some (VInt (Z.of_nat (length (dict_keys (transcript_cache s)))))
    /\ field "video_ids" resp = Some (VList (dict_keys (transcript_cache s)))
    /\ (forall video_id k,
          key_of video_id = Some k ->
          (cached_in (transcript_cache s) video_id <->
           exists key,
             In key (dict_keys (transcript_cache s)) /\ key_of key = Some k))
    /\ field "total_cache_size" resp
       = Some (VInt (Z.of_nat
                       (list_sum
                          (map String.length
                             (dict_values (transcript_cache s))))))
    /\ (reachable s -> NoDup (map key_of (dict_keys (transcript_cache s)))).
Proof.
  eexists. split; [reflexivity |]. split; [reflexivity |].
  split; [reflexivity |]. split; [reflexivity |]. split; [| split].
  - intros video_id k Hk. unfold cached_in. split.
    + intros (k' & Hk' & Hin). assert (k' = k) by congruence. subst k'.
      now apply dict_find_in.
    + intros Hkey. exists k. split; [exact Hk | now apply dict_find_in].
  - cbn. now rewrite sum_len_list_sum.
  - intros Hr. now apply reachable_wf in Hr as [_ Hnd].
Qed.

(** C5, with the count in the message.  [clear_cache] leaves the mapping empty and reports
    the number of entries it had, in decimal, inside its message; the
    response has no other field.  Afterwards [cache_status] counts 0, and
    a lookup of any id, in particular one that was cached before, asks the
    transcript service again. *)
Theorem clear_cache_resets (s : State) :
  exists s1,
    clear_cache s
    = (inr (jsonify
              [("message",
                VStr ("Cache cleared. Removed "
                      ++ str_of_int (Z.of_nat (length (transcript_cache s)))
                      ++ " cached transcripts."))]), s1)
    /\ transcript_cache s1 = []
    /\ (exists resp,
           cache_status s1 = (inr resp, s1)
           /\ field "cached_videos" resp = Some (VInt 0))
    /\ (forall video_id k,
          key_of video_id = Some k ->
          fetched (trace (snd (get_cached_transcript video_id s1)))
          = fetched (trace s1) ++ [video_id]).
Proof.
  eexists. split; [reflexivity |]. split; [reflexivity |]. split.
  - eexists. split; reflexivity.
  - intros video_id k Hk. now apply lookup_miss_fetches with (k := k).
Qed.

End Status.

(** * The theorems at concrete inputs *)

(** Two lookups of the demo video from the empty mapping. *)
Lemma cache_idempotence_witness :
  exists t s1 s2,
    get_cached_transcript (W := demo_world) (VStr "dQw4w9WgXcQ") initial
    = (inr (Some t), s1)
    /\ get_cached_transcript (VStr "dQw4w9WgXcQ") s1 = (inr (Some t), s2)
    /\ length (fetched (trace s1)) <= length (fetched (trace initial)) + 1
    /\ fetched (trace s2) = fetched (trace s1)
    /\ transcript_cache s2 = transcript_cache s1
    /\ ext s2 = ext s1.
Proof.
  exact (proj2 (cache_idempotence (W := demo_world) (VStr "dQw4w9WgXcQ")
                  (KStr "dQw4w9WgXcQ") initial eq_refl)
           _ tt eq_refl).
Defined.

(** A lookup of a video the service has nothing for. *)
Lemma failed_fetch_not_cached_witness :
  exists s1,
    get_cached_transcript (W := demo_world) (VStr "abc12345678") initial
    = (inr None, s1)
    /\ transcript_cache s1 = []
    /\ (exists resp ids,
           cache_status s1 = (inr resp, s1)
           /\ field "video_ids" resp = Some (VList ids)
           /\ forall v, In v ids -> key_of v <> Some (KStr "abc12345678"))
    /\ fetched (trace s1) = [VStr "abc12345678"]
    /\ fetched (trace (snd (get_cached_transcript (VStr "abc12345678") s1)))
       = fetched (trace s1) ++ [VStr "abc12345678"].
Proof.
  exact (failed_fetch_not_cached (W := demo_world) (VStr "abc12345678")
           (KStr "abc12345678") initial _ tt eq_refl eq_refl eq_refl).
Defined.

(** A question about a video whose cached transcript has 3001
    characters. *)
Lemma transcript_truncated_witness :
  exists head tail,
    long_transcript = (head ++ tail)%string
    /\ String.length head = 3000
    /\ tail <> ""
    /\ llm_calls
         (trace
            (snd (ask_tutor (post (VDict rick_body))
                    (holding [(VStr "dQw4w9WgXcQ", long_transcript)]))))
       = [llm_request
            (user_content (W := demo_world)
               (basic_context (W := demo_world) (VStr "") (VInt 0) ++ nl
                ++ "Transcript: " ++ head ++ "...")
               (VStr "What is this about?"))].
Proof.
  refine (transcript_truncated (W := demo_world) (post (VDict rick_body))
            rick_body (holding [(VStr "dQw4w9WgXcQ", long_transcript)])
            _ long_transcript eq_refl eq_refl eq_refl eq_refl _).
  apply Nat.ltb_lt. vm_compute. reflexivity.
Defined.

(** The empty object as body. *)
Lemma ask_without_question_witness :
  ask_tutor (W := demo_world) (post (VDict [])) initial
  = (inr (with_status (jsonify [("error", VStr "Question is required")]) 400),
     initial)
  /\ llm_calls (trace (snd (ask_tutor (post (VDict [])) initial))) = [].
Proof.
  destruct (ask_without_question (W := demo_world) (post (VDict [])) initial)
    as [Hllm H400].
  - intros d q Hj Hq. injection Hj as <-. discriminate Hq.
  - split; [exact (H400 [] eq_refl) | exact Hllm].
Defined.

(** C4, as stated, at an array body: the body has no question, and the
    answer is 500, not 400. *)
Lemma ask_array_body_not_400 :
  ask_tutor (W := demo_world) (post (VList [])) initial
  = (inr (with_status
            (jsonify
               [("error",
                 VStr "Error processing request: 'list' object has no attribute 'get'")])
            500),
     emit (Print "Error processing request: 'list' object has no attribute 'get'")
       initial)
  /\ ~ (exists resp s',
           ask_tutor (W := demo_world) (post (VList [])) initial
           = (inr resp, s')
           /\ status resp = 400).
Proof.
  split; [reflexivity |].
  intros (resp & s' & Hrun & Hst).
  vm_compute in Hrun. injection Hrun as <- _. discriminate Hst.
Qed.

(** C5, as stated, at a mapping with one entry: the response is a
    message, and has no integer field [removed]. *)
Lemma clear_cache_no_removed_field :
  fst (clear_cache (holding [(VStr "dQw4w9WgXcQ", "never gonna give you up")]))
  = inr (jsonify
           [("message", VStr "Cache cleared. Removed 1 cached transcripts.")])
  /\ ~ (exists resp n,
           fst (clear_cache
                  (holding [(VStr "dQw4w9WgXcQ", "never gonna give you up")]))
           = inr resp
           /\ field "removed" resp = Some (VInt n)).
Proof.
  split; [reflexivity |].
  intros (resp & n & Hrun & Hf).
  vm_compute in Hrun. injection Hrun as <-. discriminate Hf.
Qed.

(** The first lookup of the demo video. *)
Lemma fetch_joins_and_stores_witness :
  exists s1,
    get_cached_transcript (W := demo_world) (VStr "dQw4w9WgXcQ") initial
    = (inr (Some "never gonna give you up"), s1)
    /\ transcript_cache s1
       = [(VStr "dQw4w9WgXcQ", "never gonna give you up")]
    /\ dict_find (KStr "dQw4w9WgXcQ") (transcript_cache s1)
       = Some "never gonna give you up"
    /\ (forall k', k' <> KStr "dQw4w9WgXcQ" ->
          dict_find k' (transcript_cache s1) = dict_find k' [])
    /\ fetched (trace s1) = [VStr "dQw4w9WgXcQ"].
Proof.
  exact (fetch_joins_and_stores (W := demo_world) (VStr "dQw4w9WgXcQ")
           (KStr "dQw4w9WgXcQ") initial _ tt eq_refl eq_refl eq_refl).
Defined.

(** C9, as stated, at the end-to-end example: the transcript service
    raises, and the answer is 200, not 500. *)
Lemma fetch_exception_not_500 :
  @get_transcript_api demo_world tt (VStr "abc12345678")
  = (inl (Exn "TranscriptsDisabled" "no transcript"), tt)
  /\ ask_tutor (W := demo_world) (post (VDict demo_body)) initial
     = (inr (jsonify
               [("answer", VStr "An answer.");
                ("videoTitle", VStr "Demo");
                ("currentTime", VInt 0);
                ("cached", VBool false)]),
        snd (ask_tutor (W := demo_world) (post (VDict demo_body)) initial))
  /\ ~ (exists resp s',
           ask_tutor (W := demo_world) (post (VDict demo_body)) initial
           = (inr resp, s')
           /\ status resp = 500).
Proof.
  split; [reflexivity |]. split; [reflexivity |].
  intros (resp & s' & Hrun & Hst).
  vm_compute in Hrun. injection Hrun as <- _. discriminate Hst.
Qed.

(** The boundary at work: with the LLM down the answer is 500 and carries
    the cause; with the transcript service failing, the transcript
    endpoint answers 404. *)
Lemma handlers_catch_all_witness :
  (exists s',
      ask_tutor (W := offline_world) (post (VDict rick_body)) initial_offline
      = (inr (with_status
                (jsonify
                   [("error",
                     VStr "Error processing request: Connection error.")])
                500), s'))
  /\ (exists s',
         get_transcript (W := demo_world) (post (VDict demo_body)) initial
         = (inr (with_status
                   (jsonify
                      [("error",
                        VStr "No transcript available for this video")])
                   404), s')).
Proof.
  pose proof (handlers_catch_all (W := offline_world))
    as (_ & _ & _ & Hllm & _ & _).
  pose proof (handlers_catch_all (W := demo_world))
    as (_ & _ & _ & _ & H404 & _).
  split.
  - exact (Hllm (post (VDict rick_body)) rick_body initial_offline _ _ _ tt
             eq_refl eq_refl eq_refl eq_refl).
  - exact (H404 (post (VDict demo_body)) demo_body initial
             (KStr "abc12345678") _ tt eq_refl eq_refl eq_refl eq_refl eq_refl).
Defined.

(** A first question about the demo video: fetched during the request,
    and reported as cached. *)
Lemma cached_reflects_state_after_lookup_witness :
  exists s',
    ask_tutor (W := demo_world) (post (VDict rick_body)) initial
    = (inr (jsonify
              [("answer", VStr "An answer.");
               ("videoTitle", VStr "");
               ("currentTime", VInt 0);
               ("cached", VBool true)]), s').
Proof.
  pose proof (cached_reflects_state_after_lookup (W := demo_world)
                (post (VDict rick_body)) rick_body initial eq_refl)
    as (_ & Hfirst & _).
  destruct (Hfirst (KStr "dQw4w9WgXcQ") _ tt eq_refl eq_refl eq_refl eq_refl)
    as [_ Hok].
  exact (Hok "An answer." [] tt eq_refl eq_refl).
Defined.

(** * Further properties *)

(** ** Where the extractor finds the id *)

Module ReMore.
Import Re.

Lemma append_assoc (a b c : string) :
  ((a ++ b) ++ c)%string = (a ++ b ++ c)%string.
Proof. induction a as [|x a IH]; simpl; [reflexivity | now rewrite IH]. Qed.

Lemma strip_prefix_app (p s : string) : strip_prefix p (p ++ s) = Some s.
Proof.
  induction p as [|a p IH]; simpl; [reflexivity |].
  now rewrite Ascii.eqb_refl.
Qed.

Lemma strip_prefix_inv (p s rest : string) :
  strip_prefix p s = Some rest -> s = (p ++ rest)%string.
Proof.
  revert s. induction p as [|a p IH]; intros s; simpl.
  - now intros [= ->].
  - destruct s as [|b s]; [discriminate |].
    destruct (Ascii.eqb a b) eqn:E; [| discriminate].
    apply Ascii.eqb_eq in E as ->. intros H. now rewrite (IH _ H).
Qed.

Section Forward.
Context {R : Type}.
Implicit Types (k : string -> option string -> option R).

Lemma lit_split l s g k x :
  rmatch (Lit l) s g k = Some x ->
  exists rest, s = (l ++ rest)%string /\ k rest g = Some x.
Proof.
  simpl. destruct (strip_prefix l s) as [rest|] eqn:E; [| discriminate].
  intros H. exists rest. split; [now apply strip_prefix_inv | exact H].
Qed.

Lemma lit_app l rest g k : rmatch (Lit l) (l ++ rest) g k = k rest g.
Proof. simpl. now rewrite strip_prefix_app. Qed.

Lemma repeat_class_app p n tok rest g k :
  String.length tok = n -> all_chars p tok ->
  rmatch (Repeat n (Class p)) (tok ++ rest) g k = k rest g.
Proof.
  revert tok. induction n as [|n IH]; intros tok Hlen Hall.
  - destruct tok; [reflexivity | discriminate].
  - destruct tok as [|c tok]; [discriminate |].
    injection Hlen as Hlen. simpl.
    rewrite (Hall c (or_introl eq_refl)).
    apply (IH tok Hlen). intros c' Hc. apply Hall. now right.
Qed.

Lemma group_repeat_class_app p n tok rest g k :
  String.length tok = n -> all_chars p tok ->
  rmatch (Group (Repeat n (Class p))) (tok ++ rest) g k = k rest (Some tok).
Proof.
  intros Hlen Hall.
  change (rmatch (Repeat n (Class p)) (tok ++ rest) g
            (fun s' _ => k s' (Some (consumed (tok ++ rest) s')))
          = k rest (Some tok)).
  rewrite (repeat_class_app _ _ _ _ _ _ Hlen Hall).
  now rewrite ReFacts.consumed_app.
Qed.

Lemma group_repeat_class_split p n s g k x :
  rmatch (Group (Repeat n (Class p))) s g k = Some x ->
  exists tok rest,
    s = (tok ++ rest)%string /\ String.length tok = n /\ all_chars p tok
    /\ k rest (Some tok) = Some x.
Proof.
  intros H. change (rmatch (Repeat n (Class p)) s g
                      (fun s' _ => k s' (Some (consumed s s'))) = Some x) in H.
  destruct (ReFacts.repeat_class_inv _ _ _ _ _ _ H)
    as (tok & rest & -> & Hlen & Hall & Hk).
  rewrite ReFacts.consumed_app in Hk. exists tok, rest. auto.
Qed.
End Forward.

(** [.*] at the end of a pattern accepts whatever is left. *)
Lemma dot_star_accepts (s : string) (g : option string) :
  dot_star s g (fun _ g' => Some g') = Some g.
Proof.
  induction s as [|c s IH]; simpl; [reflexivity |].
  destruct (is_newline c); [reflexivity | now rewrite IH].
Qed.

(** What [search] finds: the leftmost suffix at which the pattern
    matches. *)
Lemma search_leftmost (r : regex) (s : string) (m : match_obj) :
  search r s = Some m <->
  exists pre suf,
    s = (pre ++ suf)%string /\ match_at r suf = Some m
    /\ forall pre' suf',
        s = (pre' ++ suf')%string ->
        String.length pre' < String.length pre -> match_at r suf' = None.
Proof.
  revert m. induction s as [|c s IH]; intros m; simpl.
  - destruct (match_at r "") as [m0|] eqn:E.
    + split.
      * intros [= <-]. exists EmptyString, EmptyString.
        repeat split; auto. simpl. intros; lia.
      * intros (pre & suf & Hs & Hm & _).
        destruct pre; [| discriminate]. simpl in Hs. subst suf. congruence.
    + split; [discriminate |].
      intros (pre & suf & Hs & Hm & _).
      destruct pre; [| discriminate]. simpl in Hs. subst suf. congruence.
  - destruct (match_at r (String c s)) as [m0|] eqn:E.
    + split.
      * intros [= <-]. exists EmptyString, (String c s).
        repeat split; auto. simpl. intros; lia.
      * intros (pre & suf & Hs & Hm & Hleft).
        destruct pre as [|c' pre].
        -- simpl in Hs. subst suf. congruence.
        -- specialize (Hleft EmptyString (String c s) eq_refl).
           simpl in Hleft. rewrite Hleft in E; [discriminate | lia].
    + rewrite IH. split.
      * intros (pre & suf & -> & Hm & Hleft).
        exists (String c pre), suf. repeat split; auto.
        intros pre' suf' Hs Hlt. destruct pre' as [|c' pre'].
        -- simpl in Hs. now subst suf'.
        -- simpl in Hs. injection Hs as _ Hs. apply (Hleft pre' suf' Hs).
           simpl in Hlt. lia.
      * intros (pre & suf & Hs & Hm & Hleft).
        destruct pre as [|c' pre].
        -- simpl in Hs. subst suf. congruence.
        -- simpl in Hs. injection Hs as _ Hs.
           exists pre, suf. repeat split; auto.
           intros pre' suf' Hs' Hlt.
           apply (Hleft (String c pre') suf'); simpl; [now rewrite Hs' | lia].
Qed.

End ReMore.

(** The first rule matches at the start of [s] exactly when [s] begins
    with [v=] or [/] followed by 11 id characters, which it captures. *)
Lemma rule_v_match_at (s : string) (m : Re.match_obj) :
  Re.match_at rule_v s = Some m <->
  exists tok, m = Some tok /\ exists sep, id_at s "" sep tok.
Proof.
  unfold Re.match_at, rule_v, id_group, id_at. rewrite ReFacts.rmatch_cat.
  split.
  - intros H.
    assert (exists sep rest,
               (sep = "v=" \/ sep = "/") /\ s = (sep ++ rest)%string
               /\ Re.rmatch (Re.Cat
                               (Re.Group (Re.Repeat 11 (Re.Class id_char)))
                               Re.DotStar) rest None
                    (fun _ g => Some g) = Some m)
      as (sep & rest & Hsep & -> & H').
    { apply ReFacts.alt_inv in H as [H | H];
        apply ReMore.lit_split in H as (rest & -> & H); eauto 6. }
    rewrite ReFacts.rmatch_cat in H'.
    apply ReMore.group_repeat_class_split in H'
      as (tok & post & -> & Hlen & Hall & Hk).
    change (Re.dot_star post (Some tok) (fun _ g => Some g) = Some m) in Hk.
    rewrite ReMore.dot_star_accepts in Hk. injection Hk as <-.
    exists tok. split; [reflexivity |]. exists sep.
    repeat split; auto. now exists post.
  - intros (tok & -> & sep & Hsep & Hlen & Hall & post & ->).
    cbn [append].
    assert (Hrest : Re.rmatch
                      (Re.Cat (Re.Group (Re.Repeat 11 (Re.Class id_char)))
                         Re.DotStar) (tok ++ post) None (fun _ g => Some g)
                    = Some (Some tok)).
    { rewrite ReFacts.rmatch_cat.
      rewrite (ReMore.group_repeat_class_app _ _ _ _ _ _ Hlen Hall).
      apply ReMore.dot_star_accepts. }
    destruct Hsep as [-> | ->].
    + change (match Re.rmatch (Re.Lit "v=") ("v=" ++ tok ++ post) None
                      (fun s' g' =>
                         Re.rmatch
                           (Re.Cat
                              (Re.Group (Re.Repeat 11 (Re.Class id_char)))
                              Re.DotStar) s' g' (fun _ g => Some g)) with
              | Some x => Some x
              | None => Re.rmatch (Re.Lit "/") ("v=" ++ tok ++ post) None
                          (fun s' g' =>
                             Re.rmatch
                               (Re.Cat
                                  (Re.Group (Re.Repeat 11 (Re.Class id_char)))
                                  Re.DotStar) s' g' (fun _ g => Some g))
              end = Some (Some tok)).
      rewrite ReMore.lit_app, Hrest. reflexivity.
    + change (Re.rmatch (Re.Lit "/") ("/" ++ tok ++ post) None
                (fun s' g' =>
                   Re.rmatch
                     (Re.Cat (Re.Group (Re.Repeat 11 (Re.Class id_char)))
                        Re.DotStar) s' g' (fun _ g => Some g))
              = Some (Some tok)).
      rewrite ReMore.lit_app. exact Hrest.
Qed.

Lemma search_none_iff (r : Re.regex) (s : string) :
  Re.search r s = None <->
  forall pre suf, s = (pre ++ suf)%string -> Re.match_at r suf = None.
Proof.
  induction s as [|c s IH]; simpl.
  - destruct (Re.match_at r "") eqn:E.
    + split; [discriminate |]. intros H. now rewrite (H "" "" eq_refl) in E.
    + split; [| reflexivity]. intros _ pre suf Hs.
      destruct pre; [| discriminate]. simpl in Hs. now subst suf.
  - destruct (Re.match_at r (String c s)) eqn:E.
    + split; [discriminate |]. intros H.
      now rewrite (H "" (String c s) eq_refl) in E.
    + rewrite IH. split.
      * intros H pre suf Hs. destruct pre as [|c' pre].
        -- simpl in Hs. now subst suf.
        -- simpl in Hs. injection Hs as _ Hs. now apply (H pre suf).
      * intros H pre suf Hs. apply (H (String c pre) suf). simpl. now rewrite Hs.
Qed.

(** A match of either later rule contains a match of the first. *)
Lemma later_rules_subsumed (url : string) :
  Re.search rule_v url = None ->
  Re.search rule_embed url = None /\ Re.search rule_watch url = None.
Proof.
  intros Hv. rewrite search_none_iff in Hv.
  assert (Hgen : forall lit before,
             (lit = (before ++ "/")%string \/ lit = (before ++ "v=")%string) ->
             Re.search (Re.Cat (Re.Lit lit) id_group) url = None).
  { intros lit before Hlit. apply search_none_iff. intros pre suf Hs.
    destruct (Re.match_at (Re.Cat (Re.Lit lit) id_group) suf) as [m|] eqn:E;
      [| reflexivity].
    exfalso. unfold Re.match_at in E. rewrite ReFacts.rmatch_cat in E.
    apply ReMore.lit_split in E as (rest & -> & E). unfold id_group in E.
    apply ReMore.group_repeat_class_split in E
      as (tok & post & -> & Hlen & Hall & _).
    assert (exists sep,
               (sep = "v=" \/ sep = "/")
               /\ url = ((pre ++ before) ++ sep ++ tok ++ post)%string)
      as (sep & Hsep & Hurl).
    { destruct Hlit as [-> | ->]; [exists "/" | exists "v="];
        (split; [auto |]); rewrite Hs, !ReMore.append_assoc; reflexivity. }
    assert (Hm : Re.match_at rule_v (sep ++ tok ++ post) = Some (Some tok)).
    { apply rule_v_match_at. exists tok. split; [reflexivity |].
      exists sep. unfold id_at. repeat split; auto. now exists post. }
    rewrite (Hv _ _ Hurl) in Hm. discriminate. }
  split.
  - apply (Hgen "embed/" "embed"). now left.
  - apply (Hgen "watch?v=" "watch?"). now right.
Qed.

Lemma extract_by_rule_v (url : string) :
  extract_video_id url
  = match Re.search rule_v url with
    | Some m => m
    | None => None
    end.
Proof.
  unfold extract_video_id.
  change patterns with [rule_v; rule_embed; rule_watch]. cbn [first_match].
  destruct (Re.search rule_v url) eqn:E; [reflexivity |].
  destruct (later_rules_subsumed url E) as [-> ->]. reflexivity.
Qed.

(** X1.  The second and third rule never decide: wherever one of them
    matches, the first rule matches too, so the extractor returns what the
    first rule alone returns. *)
Theorem later_rules_never_decide :
  patterns = [rule_v; rule_embed; rule_watch]
  /\ (forall url,
         Re.search rule_v url = None ->
         Re.search rule_embed url = None /\ Re.search rule_watch url = None)
  /\ (forall url, extract_video_id url = first_match [rule_v] url).
Proof.
  split; [reflexivity |]. split; [exact later_rules_subsumed |].
  intros url. rewrite extract_by_rule_v. cbn [first_match].
  now destruct (Re.search rule_v url).
Qed.

(** X2.  The extractor returns the 11 id characters that follow the
    leftmost [v=] or [/] that is followed by 11 id characters, wherever in
    the string that is and whatever comes after them; it returns None
    exactly when the string has no such place. *)
Theorem extract_video_id_leftmost (url : string) :
  (forall tok,
      extract_video_id url = Some tok <->
      exists pre sep,
        id_at url pre sep tok
        /\ forall pre' sep' tok',
            id_at url pre' sep' tok' ->
            String.length pre <= String.length pre')
  /\ (extract_video_id url = None <->
      forall pre sep tok, ~ id_at url pre sep tok).
Proof.
  assert (Hat : forall pre suf tok,
             url = (pre ++ suf)%string ->
             (Re.match_at rule_v suf = Some (Some tok) <->
              exists sep, id_at url pre sep tok)).
  { intros pre suf tok ->. rewrite rule_v_match_at. split.
    - intros (tok' & [= <-] & sep & Hsep & Hlen & Hall & post & ->).
      exists sep. unfold id_at. repeat split; auto. now exists post.
    - intros (sep & Hsep & Hlen & Hall & post & Hs).
      exists tok. split; [reflexivity |]. exists sep.
      unfold id_at. repeat split; auto. exists post.
      clear -Hs. induction pre as [|c pre IH]; simpl in Hs; [exact Hs |].
      injection Hs as Hs. now apply IH. }
  assert (Hcap : forall suf m,
             Re.match_at rule_v suf = Some m -> exists tok, m = Some tok).
  { intros suf m H. apply rule_v_match_at in H as (tok & -> & _). eauto. }
  rewrite extract_by_rule_v. split.
  - intros tok. split.
    + destruct (Re.search rule_v url) as [m|] eqn:E; [| discriminate].
      intros ->. apply ReMore.search_leftmost in E
        as (pre & suf & Hs & Hm & Hleft).
      apply (Hat pre suf tok Hs) in Hm as [sep Hid].
      exists pre, sep. split; [exact Hid |].
      intros pre' sep' tok' Hid'.
      destruct (Nat.le_gt_cases (String.length pre) (String.length pre'))
        as [Hle | Hlt]; [exact Hle | exfalso].
      destruct Hid' as (Hsep' & Hlen' & Hall' & post' & Hs').
      specialize (Hleft pre' _ Hs' Hlt).
      assert (Hm' : Re.match_at rule_v (sep' ++ tok' ++ post')
                    = Some (Some tok')).
      { apply (Hat pre' _ tok' Hs'). exists sep'. unfold id_at.
        repeat split; auto. now exists post'. }
      congruence.
    + intros (pre & sep & Hid & Hmin).
      assert (E : Re.search rule_v url = Some (Some tok)).
      { destruct Hid as (Hsep & Hlen & Hall & post & Hs).
        apply ReMore.search_leftmost. exists pre, (sep ++ tok ++ post)%string.
        split; [exact Hs |]. split.
        - apply (Hat pre _ tok Hs). exists sep. unfold id_at.
          repeat split; auto. now exists post.
        - intros pre' suf' Hs' Hlt.
          destruct (Re.match_at rule_v suf') as [m|] eqn:Em; [| reflexivity].
          exfalso. destruct (Hcap _ _ Em) as [tok' ->].
          apply (Hat pre' suf' tok' Hs') in Em as [sep' Hid'].
          specialize (Hmin _ _ _ Hid'). lia. }
      now rewrite E.
  - split.
    + intros Hn pre sep tok Hid.
      destruct (Re.search rule_v url) as [m|] eqn:E.
      * apply ReMore.search_leftmost in E as (p & suf & _ & Hm & _).
        destruct (Hcap _ _ Hm) as [t ->]. discriminate.
      * rewrite search_none_iff in E.
        destruct Hid as (Hsep & Hlen & Hall & post & Hs).
        assert (Hm : Re.match_at rule_v (sep ++ tok ++ post)
                     = Some (Some tok)).
        { apply (Hat pre _ tok Hs). exists sep. unfold id_at.
          repeat split; auto. now exists post. }
        rewrite (E _ _ Hs) in Hm. discriminate.
    + intros Hno. destruct (Re.search rule_v url) as [m|] eqn:E;
        [| reflexivity].
      exfalso. apply ReMore.search_leftmost in E as (pre & suf & Hs & Hm & _).
      destruct (Hcap _ _ Hm) as [tok ->].
      apply (Hat pre suf tok Hs) in Hm as [sep Hid]. exact (Hno _ _ _ Hid).
Qed.

(** ** What a request can do to the state *)

Section Combinators.
Context {W : World}.

Lemma keeps_ret P {A} (a : A) : keeps P (ret a).
Proof. intros s H. exact H. Qed.

Lemma keeps_lift P {A} (r : result A) : keeps P (lift r).
Proof. intros s H. exact H. Qed.

Lemma keeps_bind P {A B} (m : M A) (f : A -> M B) :
  keeps P m -> (forall a, keeps P (f a)) -> keeps P (bind m f).
Proof.
  intros Hm Hf s H. unfold bind. specialize (Hm s H).
  destruct (m s) as [[e|a] s1]; cbn [snd] in *; [exact Hm |].
  now apply Hf.
Qed.

Lemma keeps_try_except P {A} (m : M A) (h : exn -> M A) :
  keeps P m -> (forall e, keeps P (h e)) -> keeps P (try_except m h).
Proof.
  intros Hm Hh s H. unfold try_except. specialize (Hm s H).
  destruct (m s) as [[e|a] s1]; cbn [snd] in *; [now apply Hh | exact Hm].
Qed.

Lemma keeps_cache_contains P (video_id : value) :
  keeps P (cache_contains video_id).
Proof. intros s H. now rewrite cache_contains_state. Qed.

(** A property that printing, a lookup of a truthy id and an LLM call
    keep is kept by every handler but [clear_cache]; and by that one too
    if emptying the mapping keeps it. *)
Lemma dispatch_keeps (P : State -> Prop) (r : route) (request : Request) :
  (forall line, keeps P (print line)) ->
  (forall video_id, truthy video_id = true ->
                    keeps P (get_cached_transcript video_id)) ->
  (forall req, keeps P (messages_create_call req)) ->
  (r = PostClearCache -> forall s, P s -> P (set_cache [] s)) ->
  keeps P (dispatch r request).
Proof.
  intros Hprint Hlookup Hllm Hclear.
  destruct r; cbn [dispatch].
  - intros s H. exact H.
  - apply keeps_try_except.
    + unfold ask_tutor_body.
      repeat (apply keeps_bind; [apply keeps_lift | intros ?]).
      destruct (negb (truthy _)); [apply keeps_ret |].
      repeat (apply keeps_bind; [apply Hprint | intros _]).
      apply keeps_bind.
      { destruct (truthy _) eqn:Hv; [now apply Hlookup | apply keeps_ret]. }
      intros vt. apply keeps_bind; [apply Hllm | intros message].
      apply keeps_bind; [apply keeps_lift | intros answer].
      apply keeps_bind; [apply Hprint | intros _].
      apply keeps_bind; [| intros cached; apply keeps_ret].
      destruct (truthy _); [apply keeps_cache_contains | apply keeps_ret].
    + intros e. unfold ask_tutor_except.
      apply keeps_bind; [apply Hprint | intros _; apply keeps_ret].
  - apply keeps_try_except.
    + unfold get_transcript_body.
      repeat (apply keeps_bind; [apply keeps_lift | intros ?]).
      destruct (negb (truthy _)) eqn:Hv; [apply keeps_ret |].
      apply negb_false_iff in Hv.
      apply keeps_bind; [now apply Hlookup | intros [t|]].
      * destruct (truthy_transcript _); apply keeps_ret.
      * apply keeps_ret.
    + intros e. unfold get_transcript_except.
      apply keeps_bind; [apply Hprint | intros _; apply keeps_ret].
  - intros s H. exact H.
  - intros s H. now apply Hclear.
Qed.

Lemma bounded_same c n {A} (m : M A) :
  (forall s, c (snd (m s)) = c s) -> bounded c n m.
Proof. intros H s. rewrite H. lia. Qed.

Lemma bounded_weaken c n n' {A} (m : M A) :
  n <= n' -> bounded c n m -> bounded c n' m.
Proof. intros Hn H s. destruct (H s). lia. Qed.

Lemma bounded_bind c a b {A B} (m : M A) (f : A -> M B) :
  bounded c a m -> (forall x, bounded c b (f x)) -> bounded c (a + b) (bind m f).
Proof.
  intros Hm Hf s. unfold bind. specialize (Hm s).
  destruct (m s) as [[e|x] s1]; cbn [snd] in *; [lia |].
  specialize (Hf x s1). lia.
Qed.

Lemma bounded_try_except c a b {A} (m : M A) (h : exn -> M A) :
  bounded c a m -> (forall e, bounded c b (h e)) ->
  bounded c (a + b) (try_except m h).
Proof.
  intros Hm Hh s. unfold try_except. specialize (Hm s).
  destruct (m s) as [[e|x] s1]; cbn [snd] in *; [| lia].
  specialize (Hh e s1). lia.
Qed.

(** A counter that printing leaves alone, that a lookup raises by at most
    [a] and an LLM call by at most [b], is raised by at most [a + b] by
    any handler but [clear_cache]. *)
Lemma dispatch_bounded (c : State -> nat) (a b : nat)
      (r : route) (request : Request) :
  (forall line, bounded c 0 (print line)) ->
  (forall video_id, bounded c a (get_cached_transcript video_id)) ->
  (forall req, bounded c b (messages_create_call req)) ->
  r <> PostClearCache ->
  bounded c (a + b) (dispatch r request).
Proof.
  intros Hprint Hlookup Hllm Hr.
  assert (Hret : forall A (x : A) n, bounded c n (ret x)).
  { intros. now apply bounded_same. }
  assert (Hlift : forall A (x : result A) n, bounded c n (lift x)).
  { intros. now apply bounded_same. }
  assert (Hcontains : forall v n, bounded c n (cache_contains v)).
  { intros. apply bounded_same. intros s. now rewrite cache_contains_state. }
  destruct r; cbn [dispatch].
  - apply bounded_same. reflexivity.
  - apply (bounded_weaken c (a + b + 0)); [lia |].
    apply bounded_try_except.
    + unfold ask_tutor_body.
      do 5 (apply (bounded_bind c 0 (a + b)); [apply Hlift | intros ?]).
      destruct (negb (truthy _)); [apply Hret |].
      do 3 (apply (bounded_bind c 0 (a + b)); [apply Hprint | intros _]).
      apply (bounded_bind c a b).
      { destruct (truthy _); [apply Hlookup | apply Hret]. }
      intros vt. apply (bounded_weaken c (b + 0)); [lia |].
      apply bounded_bind; [apply Hllm | intros message].
      apply (bounded_bind c 0 0); [apply Hlift | intros answer].
      apply (bounded_bind c 0 0); [apply Hprint | intros _].
      apply (bounded_bind c 0 0); [| intros cached; apply Hret].
      destruct (truthy _); [apply Hcontains | apply Hret].
    + intros e. unfold ask_tutor_except.
      apply (bounded_bind c 0 0); [apply Hprint | intros _; apply Hret].
  - apply (bounded_weaken c (a + 0)); [lia |].
    apply bounded_try_except.
    + unfold get_transcript_body.
      do 2 (apply (bounded_bind c 0 a); [apply Hlift | intros ?]).
      destruct (negb (truthy _)); [apply Hret |].
      apply (bounded_weaken c (a + 0)); [lia |].
      apply bounded_bind; [apply Hlookup | intros [t|]].
      * destruct (truthy_transcript _); apply Hret.
      * apply Hret.
    + intros e. unfold get_transcript_except.
      apply (bounded_bind c 0 0); [apply Hprint | intros _; apply Hret].
  - apply bounded_same. reflexivity.
  - now destruct Hr.
Qed.

End Combinators.

Section RequestEffects.
Context {W : World}.

Lemma lookup_fetched (video_id : value) (s : State) :
  fetched (trace (snd (get_cached_transcript video_id s)))
  = fetched (trace s) ++ lookup_fetches video_id (transcript_cache s).
Proof.
  unfold lookup_fetches.
  destruct (lookup_cases video_id s) as [Hk | k t Hk Hf | k entries x Hk Hf Ha
                                         | k e x Hk Hf Ha];
    rewrite Hk, ?Hf; cbn [snd]; now state_simpl.
Qed.

Lemma dict_find_app (k : hkey) (d added : dict) (t : string) :
  dict_find k d = Some t -> dict_find k (d ++ added) = Some t.
Proof.
  unfold dict_find. induction d as [|entry d IH]; simpl; [discriminate |].
  destruct (has_key k entry); [auto | exact IH].
Qed.

(** A lookup appends at most one entry to the mapping. *)
Lemma lookup_appends (video_id : value) (s : State) :
  exists added,
    transcript_cache (snd (get_cached_transcript video_id s))
    = transcript_cache s ++ added
    /\ length added <= 1.
Proof.
  destruct (lookup_cases video_id s) as [Hk | k t Hk Hf | k entries x Hk Hf Ha
                                         | k e x Hk Hf Ha];
    cbn [snd]; state_simpl;
    try (exists []; rewrite app_nil_r; split; [reflexivity | simpl; lia]).
  rewrite (dict_store_absent _ _ _ _ Hf). eexists. split; [reflexivity |].
  simpl. lia.
Qed.

Lemma get_transcript_no_llm (request : Request) (s : State) :
  llm_calls (trace (snd (get_transcript request s))) = llm_calls (trace s).
Proof.
  rewrite get_transcript_boundary.
  destruct (json request) as [e|data] eqn:Hj.
  - unfold get_transcript_body, bind, lift. rewrite Hj. cbn [snd].
    now state_simpl.
  - destruct data;
      try (unfold get_transcript_body, bind, lift; rewrite Hj; cbn [snd py_get];
           now state_simpl).
    destruct (truthy (get_or d "videoId" (VStr ""))) eqn:Hv.
    + rewrite (get_transcript_body_dict _ _ _ Hj Hv).
      pose proof (lookup_no_llm (get_or d "videoId" (VStr "")) s) as Hn.
      destruct (get_cached_transcript _ s) as [[e|vt] s1]; cbn [snd] in *;
        state_simpl; exact Hn.
    + unfold get_transcript_body, bind, lift. rewrite Hj. cbn [py_get].
      rewrite Hv. reflexivity.
Qed.

(** X3.  No request calls a service more than once: handling a request
    asks the transcript service at most once and the LLM at most once,
    and never takes a call back.  Only [ask_tutor] calls the LLM, and
    only [ask_tutor] and [get_transcript] ask the transcript service. *)
Theorem one_call_per_request (r : route) (request : Request) (s : State) :
  (fetch_count s <= fetch_count (snd (dispatch r request s))
   /\ fetch_count (snd (dispatch r request s)) <= fetch_count s + 1)
  /\ (llm_count s <= llm_count (snd (dispatch r request s))
      /\ llm_count (snd (dispatch r request s)) <= llm_count s + 1)
  /\ (r <> PostAsk -> llm_count (snd (dispatch r request s)) = llm_count s)
  /\ (r <> PostAsk -> r <> PostTranscript ->
      fetch_count (snd (dispatch r request s)) = fetch_count s).
Proof.
  assert (Hf : r <> PostClearCache -> bounded fetch_count (1 + 0)
                                        (dispatch r request)).
  { apply dispatch_bounded.
    - intros line. apply bounded_same. intros s0. unfold fetch_count, print.
      cbn [snd]. now state_simpl.
    - intros v s0. unfold fetch_count. rewrite lookup_fetched, length_app.
      unfold lookup_fetches.
      destruct (key_of v) as [k|]; [destruct (dict_find k _) |]; simpl; lia.
    - intros req. apply bounded_same. intros s0.
      unfold fetch_count, messages_create_call.
      destruct (messages_create (ext s0) req). cbn [snd]. now state_simpl. }
  assert (Hl : r <> PostClearCache -> bounded llm_count (0 + 1)
                                        (dispatch r request)).
  { apply dispatch_bounded.
    - intros line. apply bounded_same. intros s0. unfold llm_count, print.
      cbn [snd]. now state_simpl.
    - intros v. apply bounded_same. intros s0. unfold llm_count.
      now rewrite lookup_no_llm.
    - intros req s0. unfold llm_count, messages_create_call.
      destruct (messages_create (ext s0) req). cbn [snd]. state_simpl.
      rewrite length_app. simpl. lia. }
  destruct r; cbn [dispatch] in *;
    try (repeat split; intros; try reflexivity; unfold fetch_count, llm_count;
         cbn; lia).
  - split; [apply Hf; discriminate |]. split; [apply Hl; discriminate |].
    split; [intros H; now destruct H |]. intros H; now destruct H.
  - split; [apply Hf; discriminate |].
    assert (Hn : llm_count (snd (get_transcript request s)) = llm_count s).
    { unfold llm_count. now rewrite get_transcript_no_llm. }
    rewrite Hn. repeat split; try lia. intros _ H. now destruct H.
Qed.

(** X4.  No request but [clear_cache] changes or drops an entry of the
    mapping: a request appends at most one entry, in last place, and
    every transcript that could be read before reads the same after. *)
Theorem entries_persist (r : route) (request : Request) (s : State) :
  r <> PostClearCache ->
  (exists added,
      transcript_cache (snd (dispatch r request s))
      = transcript_cache s ++ added)
  /\ cache_size (snd (dispatch r request s)) <= cache_size s + 1
  /\ extends (transcript_cache s)
       (transcript_cache (snd (dispatch r request s))).
Proof.
  intros Hr.
  assert (Happ : exists added,
             transcript_cache (snd (dispatch r request s))
             = transcript_cache s ++ added).
  { apply (dispatch_keeps
             (fun s' => exists added,
                  transcript_cache s' = transcript_cache s ++ added)).
    - intros line s0 H. exact H.
    - intros v _ s0 [added H].
      destruct (lookup_appends v s0) as (more & -> & _).
      exists (added ++ more). now rewrite H, app_assoc.
    - intros req s0 H. unfold messages_create_call.
      now destruct (messages_create (ext s0) req).
    - intros H. now destruct Hr.
    - exists []. now rewrite app_nil_r. }
  split; [exact Happ |]. split.
  - assert (Hb : bounded cache_size (1 + 0) (dispatch r request)).
    { apply dispatch_bounded; [| | | exact Hr].
      - intros line. now apply bounded_same.
      - intros v s0. unfold cache_size.
        destruct (lookup_appends v s0) as (more & -> & Hm).
        rewrite length_app. lia.
      - intros req. apply bounded_same. intros s0.
        unfold messages_create_call.
        now destruct (messages_create (ext s0) req). }
    apply Hb.
  - destruct Happ as [added ->]. intros k t. apply dict_find_app.
Qed.

(** X5.  In every state the process can reach, each key of the mapping
    is a truthy, hashable value that the transcript service was asked
    for, and no two keys are equal. *)
Theorem reachable_keys_fetched (s : State) :
  reachable s ->
  keys_fetched s
  /\ Forall (fun key => key_of key <> None) (dict_keys (transcript_cache s))
  /\ NoDup (map key_of (dict_keys (transcript_cache s))).
Proof.
  intros Hr. split; [| exact (reachable_wf s Hr)].
  induction Hr as [env x | s r request _ IH | s x _ IH].
  - intros key [].
  - revert IH. apply dispatch_keeps.
    + intros line s0 H key Hin. destruct (H key Hin) as [Ht Hf].
      split; [exact Ht |]. unfold print. cbn [snd]. state_simpl. exact Hf.
    + intros v Hv s0 H key Hin.
      rewrite lookup_fetched.
      destruct (lookup_cases v s0)
        as [Hk | k t Hk Hf | k entries x Hk Hf Ha | k e x Hk Hf Ha];
        cbn [snd] in Hin; cbn [transcript_cache emit set_cache set_ext
                                 after_fetch] in Hin.
      * destruct (H key Hin). split; [assumption | apply in_or_app; now left].
      * destruct (H key Hin). split; [assumption | apply in_or_app; now left].
      * rewrite (dict_store_absent _ _ _ _ Hf) in Hin.
        unfold dict_keys in Hin. rewrite map_app in Hin.
        apply in_app_or in Hin as [Hin | [<- | []]].
        -- destruct (H key Hin).
           split; [assumption | apply in_or_app; now left].
        -- split; [exact Hv |]. apply in_or_app. right.
           unfold lookup_fetches. rewrite Hk, Hf. now left.
      * destruct (H key Hin). split; [assumption | apply in_or_app; now left].
    + intros req s0 H key Hin. unfold messages_create_call in *.
      destruct (messages_create (ext s0) req). cbn [snd] in *.
      destruct (H key Hin) as [Ht Hf]. split; [exact Ht |].
      state_simpl. exact Hf.
    + intros _ s0 _ key [].
  - exact IH.
Qed.

End RequestEffects.

(** ** The two endpoints that take a body, path by path *)

Section Paths.
Context {W : World}.

(** [ask_tutor] on an object body with a question: the lookup, the LLM
    call and the membership test decide the response. *)
Lemma ask_tutor_dict_run (request : Request) (d : list (string * value))
      (s : State) :
  let question := get_or d "question" (VStr "") in
  let video_title := get_or d "videoTitle" (VStr "") in
  let current_time := get_or d "currentTime" (VInt 0) in
  let video_id := get_or d "videoId" (VStr "") in
  json request = inr (VDict d) ->
  truthy question = true ->
  ask_tutor request s
  = match (if truthy video_id then get_cached_transcript video_id
           else ret (Some ""))
            (after_prints question video_id video_title s) with
    | (inl e, s1) =>
        (inr (ask_error e),
         emit (Print ("Error processing request: " ++ exn_str e)) s1)
    | (inr video_transcript, s1) =>
        let req :=
          llm_request
            (user_content
               (add_transcript (basic_context video_title current_time)
                  video_transcript)
               question) in
        match messages_create (ext s1) req with
        | (inl e, x) =>
            (inr (ask_error e),
             emit (Print ("Error processing request: " ++ exn_str e))
               (after_llm req x s1))
        | (inr [], x) =>
            (inr (ask_error (Exn "IndexError" "list index out of range")),
             emit (Print "Error processing request: list index out of range")
               (after_llm req x s1))
        | (inr (answer :: _), x) =>
            let s3 :=
              emit (Print "AI Response generated successfully")
                (after_llm req x s1) in
            if truthy video_id then
              match key_of video_id with
              | Some k =>
                  (inr (answered answer video_title current_time
                          (match dict_find k (transcript_cache s1) with
                           | Some _ => true
                           | None => false
                           end)), s3)
              | None =>
                  (inr (ask_error (unhashable video_id)),
                   emit (Print ("Error processing request: "
                                ++ exn_str (unhashable video_id))) s3)
              end
            else (inr (answered answer video_title current_time false), s3)
        end
    end.
Proof.
  intros question video_title current_time video_id Hj Hq.
  rewrite ask_tutor_boundary, (ask_tutor_body_dict _ _ _ Hj). cbv zeta.
  fold question video_title current_time video_id. rewrite Hq. cbn [negb].
  destruct ((if truthy video_id then get_cached_transcript video_id
             else ret (Some "")) _) as [[e|vt] s1]; [reflexivity |].
  destruct (messages_create (ext s1) _) as [[e|[|answer message]] x];
    try reflexivity.
  destruct (truthy video_id); [| reflexivity].
  unfold cache_contains, bind, lift, hash_key.
  destruct (key_of video_id); reflexivity.
Qed.

(** The one LLM request of [ask_tutor] when the lookup of the request's
    video id yields [video_transcript]. *)
Lemma ask_llm_request (request : Request) (d : list (string * value))
      (s s1 : State) (video_transcript : option string) :
  let question := get_or d "question" (VStr "") in
  let video_title := get_or d "videoTitle" (VStr "") in
  let current_time := get_or d "currentTime" (VInt 0) in
  let video_id := get_or d "videoId" (VStr "") in
  json request = inr (VDict d) ->
  truthy question = true ->
  truthy video_id = true ->
  get_cached_transcript video_id s = (inr video_transcript, s1) ->
  llm_calls (trace (snd (ask_tutor request s)))
  = llm_calls (trace s)
      ++ [llm_request
            (user_content
               (add_transcript (basic_context video_title current_time)
                  video_transcript)
               question)]
  /\ fetched (trace (snd (ask_tutor request s))) = fetched (trace s1)
  /\ transcript_cache (snd (ask_tutor request s)) = transcript_cache s1.
Proof.
  intros question video_title current_time video_id Hj Hq Hv Hl.
  rewrite (ask_tutor_dict_run _ _ _ Hj Hq). cbv zeta.
  fold question video_title current_time video_id. rewrite Hv.
  set (s0 := after_prints question video_id video_title s).
  destruct (lookup_same_store video_id s s0 eq_refl eq_refl) as (Hr & Hc & _).
  pose proof (lookup_no_llm video_id s0) as Hn.
  pose proof (lookup_fetched video_id s0) as Hf0.
  pose proof (lookup_fetched video_id s) as Hf.
  destruct (get_cached_transcript video_id s0) as [r s1'] eqn:E.
  rewrite Hl in Hr, Hc, Hf. cbn [fst snd] in *. subst r.
  assert (Hn0 : llm_calls (trace s1') = llm_calls (trace s)).
  { rewrite Hn. subst s0. unfold after_prints. now state_simpl. }
  assert (Hf1 : fetched (trace s1') = fetched (trace s1)).
  { rewrite Hf0, Hf. subst s0. unfold after_prints. now state_simpl. }
  destruct (messages_create (ext s1') _) as [[e|[|answer message]] x];
    cbn [snd]; unfold after_llm; state_simpl; rewrite ?Hn0; auto.
  destruct (key_of video_id); cbn [snd]; state_simpl; rewrite ?Hn0; auto.
Qed.

Lemma slice_to_short (n : nat) (t : string) :
  String.length t <= n -> slice_to n t = t.
Proof.
  unfold slice_to. revert n. induction t as [|c t IH]; intros n Hn.
  - now destruct n.
  - destruct n as [|n]; simpl in *; [lia |]. rewrite IH; [reflexivity | lia].
Qed.

(** X6.  A transcript of at most 3000 characters is sent whole, and the
    three dots follow it all the same; when the lookup yields nothing, or
    an empty transcript, the context has no transcript line at all. *)
Theorem short_transcript_sent_whole
        (request : Request) (d : list (string * value)) (s s1 : State)
        (video_transcript : option string) :
  let question := get_or d "question" (VStr "") in
  let video_title := get_or d "videoTitle" (VStr "") in
  let current_time := get_or d "currentTime" (VInt 0) in
  let video_id := get_or d "videoId" (VStr "") in
  json request = inr (VDict d) ->
  truthy question = true ->
  truthy video_id = true ->
  get_cached_transcript video_id s = (inr video_transcript, s1) ->
  exists context,
    llm_calls (trace (snd (ask_tutor request s)))
    = llm_calls (trace s) ++ [llm_request (user_content context question)]
    /\ (forall t,
           video_transcript = Some t ->
           0 < String.length t -> String.length t <= 3000 ->
           context = (basic_context video_title current_time ++ nl
                      ++ "Transcript: " ++ t ++ "...")%string)
    /\ (video_transcript = None \/ video_transcript = Some "" ->
        context = basic_context video_title current_time).
Proof.
  intros question video_title current_time video_id Hj Hq Hv Hl.
  exists (add_transcript (basic_context video_title current_time)
            video_transcript).
  split; [exact (proj1 (ask_llm_request _ _ _ _ _ Hj Hq Hv Hl)) |]. split.
  - intros t -> Hpos Hle. unfold add_transcript, truthy_transcript.
    rewrite (slice_to_short _ _ Hle).
    destruct t; [simpl in Hpos; lia | reflexivity].
  - intros [-> | ->]; reflexivity.
Qed.

(** [ask_tutor] on an object body with a question and no video id. *)
Lemma ask_tutor_no_video_run (request : Request) (d : list (string * value))
      (s : State) :
  let question := get_or d "question" (VStr "") in
  let video_title := get_or d "videoTitle" (VStr "") in
  let current_time := get_or d "currentTime" (VInt 0) in
  let video_id := get_or d "videoId" (VStr "") in
  let req :=
    llm_request
      (user_content (basic_context video_title current_time) question) in
  let s0 := after_prints question video_id video_title s in
  json request = inr (VDict d) ->
  truthy question = true ->
  truthy video_id = false ->
  ask_tutor request s
  = match messages_create (ext s) req with
    | (inl e, x) =>
        (inr (ask_error e),
         emit (Print ("Error processing request: " ++ exn_str e))
           (after_llm req x s0))
    | (inr [], x) =>
        (inr (ask_error (Exn "IndexError" "list index out of range")),
         emit (Print "Error processing request: list index out of range")
           (after_llm req x s0))
    | (inr (answer :: _), x) =>
        (inr (answered answer video_title current_time false),
         emit (Print "AI Response generated successfully")
           (after_llm req x s0))
    end.
Proof.
  intros question video_title current_time video_id req s0 Hj Hq Hv.
  rewrite (ask_tutor_dict_run _ _ _ Hj Hq). cbv zeta.
  fold question video_title current_time video_id. rewrite Hv.
  reflexivity.
Qed.

(** X7.  Without a video id (the field is missing, or falsy: empty
    string, null, 0, false, an empty list or object) [ask_tutor] touches
    neither the transcript service nor the mapping; it sends one request
    whose context is the title and time alone, and answers with the text
    of the first block of the reply, the title and time as received (or
    the empty string and 0) and [cached: false].  A reply without blocks,
    like an exception of the LLM, gives 500. *)
Theorem ask_without_video_id
        (request : Request) (d : list (string * value)) (s : State) :
  let question := get_or d "question" (VStr "") in
  let video_title := get_or d "videoTitle" (VStr "") in
  let current_time := get_or d "currentTime" (VInt 0) in
  let video_id := get_or d "videoId" (VStr "") in
  let req :=
    llm_request
      (user_content (basic_context video_title current_time) question) in
  json request = inr (VDict d) ->
  truthy question = true ->
  truthy video_id = false ->
  fetched (trace (snd (ask_tutor request s))) = fetched (trace s)
  /\ transcript_cache (snd (ask_tutor request s)) = transcript_cache s
  /\ llm_calls (trace (snd (ask_tutor request s)))
     = llm_calls (trace s) ++ [req]
  /\ (forall answer more x,
         messages_create (ext s) req = (inr (answer :: more), x) ->
         fst (ask_tutor request s)
         = inr (answered answer video_title current_time false))
  /\ (forall x,
         messages_create (ext s) req = (inr [], x) ->
         fst (ask_tutor request s)
         = inr (ask_error (Exn "IndexError" "list index out of range")))
  /\ (forall e x,
         messages_create (ext s) req = (inl e, x) ->
         fst (ask_tutor request s) = inr (ask_error e)).
Proof.
  intros question video_title current_time video_id req Hj Hq Hv.
  rewrite (ask_tutor_no_video_run _ _ _ Hj Hq Hv). cbv zeta.
  fold question video_title current_time video_id. fold req.
  destruct (messages_create (ext s) req) as [[e|[|answer message]] x] eqn:Hm;
    cbn [fst snd]; unfold after_llm, after_prints; state_simpl;
    repeat split; try reflexivity; try discriminate;
    try (intros; congruence).
Qed.

End Paths.

Section TranscriptEndpoint.
Context {W : World}.

(** [get_transcript] on an object body that names a video: the lookup
    decides the response. *)
Lemma get_transcript_dict_run (request : Request) (d : list (string * value))
      (s : State) :
  let video_id := get_or d "videoId" (VStr "") in
  json request = inr (VDict d) ->
  truthy video_id = true ->
  get_transcript request s
  = match get_cached_transcript video_id s with
    | (inl e, s1) =>
        (inr (transcript_error e),
         emit (Print ("Error in get_transcript: " ++ exn_str e)) s1)
    | (inr (Some t), s1) =>
        (inr (if negb (String.eqb t "") then transcript_cached t
              else no_transcript), s1)
    | (inr None, s1) => (inr no_transcript, s1)
    end.
Proof.
  intros video_id Hj Hv.
  rewrite get_transcript_boundary, (get_transcript_body_dict _ _ _ Hj Hv).
  fold video_id.
  destruct (get_cached_transcript video_id s) as [[e|[t|]] s1]; reflexivity.
Qed.

(** A body that is not a JSON object never reaches the validation of
    [get_transcript]: the boundary answers 500 and nothing is fetched. *)
Lemma get_transcript_non_object_body (request : Request) (s : State) :
  (forall d, json request <> inr (VDict d)) ->
  exists resp s',
    get_transcript request s = (inr resp, s')
    /\ status resp = 500
    /\ fetched (trace s') = fetched (trace s)
    /\ transcript_cache s' = transcript_cache s.
Proof.
  intros Hd. rewrite get_transcript_boundary.
  unfold get_transcript_body. unfold bind at 1. unfold lift at 1.
  destruct (json request) as [e|data].
  { do 2 eexists. split; [reflexivity |]. split; [reflexivity |].
    now state_simpl. }
  unfold bind at 1. unfold lift at 1.
  destruct data; try (do 2 eexists; split; [reflexivity |];
                      split; [reflexivity | now state_simpl]).
  now destruct (Hd d).
Qed.

(** X8.  A request to [get_transcript] without a video id (the field is
    missing or falsy) asks the transcript service for nothing and leaves
    the mapping alone; when its body is a JSON object the answer is 400,
    "Video ID is required", and the state is untouched. *)
Theorem get_transcript_without_video_id (request : Request) (s : State) :
  (forall d v,
      json request = inr (VDict d) ->
      lookup "videoId" d = Some v -> truthy v = false) ->
  fetched (trace (snd (get_transcript request s))) = fetched (trace s)
  /\ transcript_cache (snd (get_transcript request s)) = transcript_cache s
  /\ (forall d,
         json request = inr (VDict d) ->
         get_transcript request s = (inr video_id_required, s)).
Proof.
  intros Hno.
  assert (H400 : forall d,
             json request = inr (VDict d) ->
             get_transcript request s = (inr video_id_required, s)).
  { intros d Hj.
    assert (Hf : truthy (get_or d "videoId" (VStr "")) = false).
    { unfold get_or. destruct (lookup "videoId" d) as [v|] eqn:E;
        [exact (Hno d v Hj E) | reflexivity]. }
    rewrite get_transcript_boundary.
    unfold get_transcript_body. unfold bind at 1. unfold lift at 1.
    rewrite Hj. cbn [py_get]. unfold bind at 1. unfold lift at 1.
    rewrite Hf. reflexivity. }
  assert (Hcases : (exists d, json request = inr (VDict d))
                   \/ forall d, json request <> inr (VDict d)).
  { destruct (json request) as [e|data]; [right; discriminate |].
    destruct data; try (right; discriminate). left. eauto. }
  split; [| split; [| exact H400]].
  - destruct Hcases as [[d Hj] | Hd].
    + now rewrite (H400 d Hj).
    + destruct (get_transcript_non_object_body request s Hd)
        as (resp & s' & -> & _ & Hf & _). exact Hf.
  - destruct Hcases as [[d Hj] | Hd].
    + now rewrite (H400 d Hj).
    + destruct (get_transcript_non_object_body request s Hd)
        as (resp & s' & -> & _ & _ & Hc). exact Hc.
Qed.

(** X9.  A truthy video id that has no hash (a non-empty list or object)
    makes both endpoints answer 500 with the [TypeError] of the membership
    test as cause; the LLM is not called, the transcript service is not
    asked, and the mapping stays as it was. *)
Theorem unhashable_video_id_is_500
        (request : Request) (d : list (string * value)) (s : State) :
  let question := get_or d "question" (VStr "") in
  let video_title := get_or d "videoTitle" (VStr "") in
  let video_id := get_or d "videoId" (VStr "") in
  json request = inr (VDict d) ->
  truthy video_id = true ->
  key_of video_id = None ->
  get_transcript request s
  = (inr (transcript_error (unhashable video_id)),
     emit (Print ("Error in get_transcript: "
                  ++ exn_str (unhashable video_id))) s)
  /\ (truthy question = true ->
      ask_tutor request s
      = (inr (ask_error (unhashable video_id)),
         emit (Print ("Error processing request: "
                      ++ exn_str (unhashable video_id)))
           (after_prints question video_id video_title s)))
  /\ llm_calls (trace (snd (ask_tutor request s))) = llm_calls (trace s)
  /\ fetched (trace (snd (ask_tutor request s))) = fetched (trace s)
  /\ transcript_cache (snd (ask_tutor request s)) = transcript_cache s.
Proof.
  intros question video_title video_id Hj Hv Hk.
  assert (Hask : truthy question = true ->
                 ask_tutor request s
                 = (inr (ask_error (unhashable video_id)),
                    emit (Print ("Error processing request: "
                                 ++ exn_str (unhashable video_id)))
                      (after_prints question video_id video_title s))).
  { intros Hq. rewrite (ask_tutor_dict_run _ _ _ Hj Hq). cbv zeta.
    fold question video_title video_id. rewrite Hv.
    now rewrite (lookup_unhashable _ _ Hk). }
  split; [| split; [exact Hask |]].
  - rewrite (get_transcript_dict_run _ _ _ Hj Hv). fold video_id.
    now rewrite (lookup_unhashable _ _ Hk).
  - destruct (truthy question) eqn:Hq.
    + rewrite (Hask eq_refl). cbn [snd]. unfold after_prints.
      now state_simpl.
    + assert (Hrun : ask_tutor request s
                     = (inr (with_status
                               (jsonify
                                  [("error", VStr "Question is required")])
                               400), s)).
      { rewrite ask_tutor_boundary, (ask_tutor_body_dict _ _ _ Hj). cbv zeta.
        fold question. now rewrite Hq. }
      rewrite Hrun. auto.
Qed.

(** The length of [" ".join(parts)]: the characters of the parts and
    one space between neighbours. *)
Lemma join_length (parts : list string) :
  String.length (join " " parts)
  = list_sum (map String.length parts) + (length parts - 1).
Proof.
  unfold join. induction parts as [|p parts IH]; [reflexivity |].
  destruct parts as [|p' parts].
  - simpl. lia.
  - change (String.concat " " (p :: p' :: parts))
      with (p ++ " " ++ String.concat " " (p' :: parts))%string.
    rewrite !ReFacts.string_length_app, IH. simpl. lia.
Qed.

(** X10.  A first, successful prefetch of a video with a non-empty
    transcript answers 200 with the length of the transcript, which is the
    number of characters of the segments plus one space between
    neighbours, and leaves the transcript in the mapping; a prefetch of a
    video that is already cached reports the stored length without asking
    the service. *)
Theorem get_transcript_reports_length
        (request : Request) (d : list (string * value)) (s : State)
        (k : hkey) :
  let video_id := get_or d "videoId" (VStr "") in
  json request = inr (VDict d) ->
  truthy video_id = true ->
  key_of video_id = Some k ->
  (forall entries x,
      dict_find k (transcript_cache s) = None ->
      get_transcript_api (ext s) video_id = (inr entries, x) ->
      join " " (map text entries) <> "" ->
      exists s1,
        get_transcript request s
        = (inr (transcript_cached (join " " (map text entries))), s1)
        /\ field "length" (transcript_cached (join " " (map text entries)))
           = Some (VInt (Z.of_nat
                           (list_sum (map String.length (map text entries))
                            + (length entries - 1))))
        /\ dict_find k (transcript_cache s1)
           = Some (join " " (map text entries))
        /\ fetched (trace s1) = fetched (trace s) ++ [video_id])
  /\ (forall t,
         dict_find k (transcript_cache s) = Some t ->
         t <> "" ->
         exists s1,
           get_transcript request s = (inr (transcript_cached t), s1)
           /\ fetched (trace s1) = fetched (trace s)
           /\ transcript_cache s1 = transcript_cache s).
Proof.
  intros video_id Hj Hv Hk. split.
  - intros entries x Hf Ha Hne.
    rewrite (get_transcript_dict_run _ _ _ Hj Hv). fold video_id.
    rewrite (lookup_fetch_ok _ _ _ _ _ Hk Hf Ha).
    apply String.eqb_neq in Hne. rewrite Hne. cbn [negb].
    eexists. split; [reflexivity |]. state_simpl. split; [| split].
    + cbn. now rewrite join_length, length_map.
    + now apply dict_find_store_same.
    + reflexivity.
  - intros t Hf Hne.
    rewrite (get_transcript_dict_run _ _ _ Hj Hv). fold video_id.
    rewrite (lookup_hit _ _ _ _ Hk Hf).
    apply String.eqb_neq in Hne. rewrite Hne. cbn [negb].
    eexists. split; [reflexivity |]. now state_simpl.
Qed.


End TranscriptEndpoint.

Section Compositions.
Context {W : World}.

(** X12.  Prefetching does what it is for: after a first, successful
    [get_transcript] for a video with a non-empty transcript, an
    [ask_tutor] about the same video does not ask the transcript service,
    sends the prefetched transcript in its context, and reports
    [cached: true] when the LLM answers. *)
Theorem prefetch_then_ask
        (prefetch ask : Request) (dp da : list (string * value)) (s : State)
        (k : hkey) (entries : list TranscriptEntry) (x : Ext) :
  let question := get_or da "question" (VStr "") in
  let video_title := get_or da "videoTitle" (VStr "") in
  let current_time := get_or da "currentTime" (VInt 0) in
  let video_id := get_or da "videoId" (VStr "") in
  let t := join " " (map text entries) in
  let req :=
    llm_request
      (user_content
         (add_transcript (basic_context video_title current_time) (Some t))
         question) in
  json prefetch = inr (VDict dp) ->
  json ask = inr (VDict da) ->
  get_or dp "videoId" (VStr "") = video_id ->
  truthy video_id = true ->
  key_of video_id = Some k ->
  dict_find k (transcript_cache s) = None ->
  get_transcript_api (ext s) video_id = (inr entries, x) ->
  t <> "" ->
  truthy question = true ->
  exists s1,
    get_transcript prefetch s = (inr (transcript_cached t), s1)
    /\ fetched (trace (snd (ask_tutor ask s1))) = fetched (trace s1)
    /\ llm_calls (trace (snd (ask_tutor ask s1)))
       = llm_calls (trace s1) ++ [req]
    /\ forall answer more x',
        messages_create x req = (inr (answer :: more), x') ->
        fst (ask_tutor ask s1)
        = inr (answered answer video_title current_time true).
Proof.
  intros question video_title current_time video_id t req
    Hjp Hja Hsame Hv Hk Hf Ha Hne Hq.
  assert (Hvp : truthy (get_or dp "videoId" (VStr "")) = true)
    by now rewrite Hsame.
  pose proof (get_transcript_dict_run prefetch dp s Hjp Hvp) as R1.
  cbv zeta in R1. rewrite Hsame in R1.
  rewrite (lookup_fetch_ok _ _ _ _ _ Hk Hf Ha) in R1. cbv zeta in R1.
  fold t in R1. apply String.eqb_neq in Hne. rewrite Hne in R1.
  cbn [negb] in R1.
  match type of R1 with _ = (_, ?st) => set (s1 := st) in * end.
  assert (Hf1 : dict_find k (transcript_cache s1) = Some t).
  { subst s1. state_simpl. now apply dict_find_store_same. }
  assert (He1 : ext s1 = x) by reflexivity.
  exists s1. split; [exact R1 |].
  pose proof (ask_llm_request ask da s1 _ _ Hja Hq Hv
                (lookup_hit _ _ _ _ Hk Hf1)) as (Hl & Hfe & _).
  cbv zeta in Hl, Hfe. fold question video_title current_time video_id in Hl.
  split; [| split; [exact Hl |]].
  - rewrite Hfe. now state_simpl.
  - intros answer more x' Hm.
    rewrite (ask_tutor_dict_run _ _ _ Hja Hq). cbv zeta.
    fold question video_title current_time video_id. rewrite Hv.
    set (s0 := after_prints question video_id video_title s1).
    assert (Hf0 : dict_find k (transcript_cache s0) = Some t) by exact Hf1.
    rewrite (lookup_hit _ _ _ _ Hk Hf0).
    change (ext (emit (Print ("Using cached transcript for video: "
                              ++ py_str video_id)) s0)) with x.
    fold req. rewrite Hm, Hk. cbn [transcript_cache emit].
    change (transcript_cache s0) with (transcript_cache s1).
    now rewrite Hf1.
Qed.

(** X13.  A failure is not remembered: when the first lookup of an id
    fails and the service then has a transcript, the next lookup of the
    same id fetches it, returns it and stores it. *)
Theorem retry_after_failure
        (video_id : value) (k : hkey) (s : State) (e : exn) (x1 x2 : Ext)
        (entries : list TranscriptEntry) :
  key_of video_id = Some k ->
  dict_find k (transcript_cache s) = None ->
  get_transcript_api (ext s) video_id = (inl e, x1) ->
  get_transcript_api x1 video_id = (inr entries, x2) ->
  exists s1 s2,
    get_cached_transcript video_id s = (inr None, s1)
    /\ get_cached_transcript video_id s1
       = (inr (Some (join " " (map text entries))), s2)
    /\ dict_find k (transcript_cache s2) = Some (join " " (map text entries))
    /\ fetched (trace s2) = fetched (trace s) ++ [video_id; video_id].
Proof.
  intros Hk Hf Ha1 Ha2.
  pose proof (lookup_fetch_fail _ _ _ _ _ Hk Hf Ha1) as R1.
  match type of R1 with _ = (_, ?st) => set (s1 := st) in * end.
  assert (Hf1 : dict_find k (transcript_cache s1) = None) by exact Hf.
  assert (Ha : get_transcript_api (ext s1) video_id = (inr entries, x2))
    by exact Ha2.
  pose proof (lookup_fetch_ok _ _ _ _ _ Hk Hf1 Ha) as R2. cbv zeta in R2.
  exists s1. eexists. split; [exact R1 |]. split; [exact R2 |].
  state_simpl. split; [now apply dict_find_store_same |].
  subst s1. state_simpl. now rewrite <- app_assoc.
Qed.

(** X14.  A request that fails keeps what it fetched: when [ask_tutor]
    fetches a transcript for the first time and the LLM call then raises,
    the answer is 500 with the cause, yet the transcript is in the mapping
    afterwards and the next lookup of the id does not fetch. *)
Theorem llm_failure_keeps_transcript
        (request : Request) (d : list (string * value)) (s : State)
        (k : hkey) (entries : list TranscriptEntry) (x x' : Ext) (e : exn) :
  let question := get_or d "question" (VStr "") in
  let video_title := get_or d "videoTitle" (VStr "") in
  let current_time := get_or d "currentTime" (VInt 0) in
  let video_id := get_or d "videoId" (VStr "") in
  let t := join " " (map text entries) in
  json request = inr (VDict d) ->
  truthy question = true ->
  truthy video_id = true ->
  key_of video_id = Some k ->
  dict_find k (transcript_cache s) = None ->
  get_transcript_api (ext s) video_id = (inr entries, x) ->
  messages_create x
    (llm_request
       (user_content
          (add_transcript (basic_context video_title current_time) (Some t))
          question))
  = (inl e, x') ->
  exists s',
    ask_tutor request s = (inr (ask_error e), s')
    /\ dict_find k (transcript_cache s') = Some t
    /\ fetched (trace s') = fetched (trace s) ++ [video_id]
    /\ fetched (trace (snd (get_cached_transcript video_id s')))
       = fetched (trace s').
Proof.
  intros question video_title current_time video_id t
    Hj Hq Hv Hk Hf Ha Hm.
  rewrite (ask_tutor_dict_run _ _ _ Hj Hq). cbv zeta.
  fold question video_title current_time video_id. rewrite Hv.
  set (s0 := after_prints question video_id video_title s).
  assert (Hf0 : dict_find k (transcript_cache s0) = None) by exact Hf.
  assert (Ha0 : get_transcript_api (ext s0) video_id = (inr entries, x))
    by exact Ha.
  rewrite (lookup_fetch_ok _ _ _ _ _ Hk Hf0 Ha0). cbv zeta. fold t.
  state_simpl. rewrite Hm.
  eexists. split; [reflexivity |]. unfold after_llm. state_simpl.
  assert (Hs : dict_find k (dict_store k video_id t (transcript_cache s0))
               = Some t) by now apply dict_find_store_same.
  split; [exact Hs |]. split.
  - subst s0. unfold after_prints. now state_simpl.
  - rewrite lookup_fetched. state_simpl. unfold lookup_fetches.
    rewrite Hk, Hs. now rewrite app_nil_r.
Qed.

End Compositions.

Section Responses.
Context {W : World}.

(** The responses [ask_tutor] can give. *)
Lemma ask_tutor_responses (request : Request) (s : State) :
  exists resp,
    fst (ask_tutor request s) = inr resp
    /\ (resp = with_status
                 (jsonify [("error", VStr "Question is required")]) 400
        \/ (exists e, resp = ask_error e)
        \/ exists answer video_title current_time cached,
            resp = answered answer video_title current_time cached).
Proof.
  destruct (json request) as [e|data] eqn:Hj.
  { rewrite ask_tutor_boundary. unfold ask_tutor_body, bind, lift.
    rewrite Hj. eexists. split; [reflexivity |]. right. left. now exists e. }
  destruct data;
    try (rewrite ask_tutor_boundary; unfold ask_tutor_body, bind, lift;
         rewrite Hj; cbn [py_get]; eexists; split; [reflexivity |];
         right; left; eexists; reflexivity).
  destruct (truthy (get_or d "question" (VStr ""))) eqn:Hq.
  - rewrite (ask_tutor_dict_run _ _ _ Hj Hq). cbv zeta.
    destruct ((if truthy (get_or d "videoId" (VStr ""))
               then get_cached_transcript (get_or d "videoId" (VStr ""))
               else ret (Some "")) _) as [[e|vt] s1].
    { eexists. split; [reflexivity |]. right. left. now exists e. }
    destruct (messages_create (ext s1) _) as [[e|[|answer message]] x].
    + eexists. split; [reflexivity |]. right. left. now exists e.
    + eexists. split; [reflexivity |]. right. left. eexists. reflexivity.
    + destruct (truthy (get_or d "videoId" (VStr ""))).
      * destruct (key_of (get_or d "videoId" (VStr ""))).
        -- eexists. split; [reflexivity |]. right. right.
           do 4 eexists. reflexivity.
        -- eexists. split; [reflexivity |]. right. left.
           eexists. reflexivity.
      * eexists. split; [reflexivity |]. right. right.
        do 4 eexists. reflexivity.
  - rewrite ask_tutor_boundary, (ask_tutor_body_dict _ _ _ Hj). cbv zeta.
    rewrite Hq. eexists. split; [reflexivity |]. now left.
Qed.

(** The responses [get_transcript] can give. *)
Lemma get_transcript_responses (request : Request) (s : State) :
  exists resp,
    fst (get_transcript request s) = inr resp
    /\ (resp = video_id_required
        \/ resp = no_transcript
        \/ (exists e, resp = transcript_error e)
        \/ exists t, resp = transcript_cached t).
Proof.
  destruct (json request) as [e|data] eqn:Hj.
  { rewrite get_transcript_boundary. unfold get_transcript_body, bind, lift.
    rewrite Hj. eexists. split; [reflexivity |]. right. right. left.
    now exists e. }
  destruct data;
    try (rewrite get_transcript_boundary;
         unfold get_transcript_body, bind, lift;
         rewrite Hj; cbn [py_get]; eexists; split; [reflexivity |];
         right; right; left; eexists; reflexivity).
  destruct (truthy (get_or d "videoId" (VStr ""))) eqn:Hv.
  - rewrite (get_transcript_dict_run _ _ _ Hj Hv). cbv zeta.
    destruct (get_cached_transcript _ s) as [[e|[t|]] s1].
    + eexists. split; [reflexivity |]. right. right. left. now exists e.
    + destruct (negb (String.eqb t "")).
      * eexists. split; [reflexivity |]. right. right. right. now exists t.
      * eexists. split; [reflexivity |]. right. now left.
    + eexists. split; [reflexivity |]. right. now left.
  - rewrite get_transcript_boundary.
    unfold get_transcript_body. unfold bind at 1. unfold lift at 1.
    rewrite Hj. cbn [py_get]. unfold bind at 1. unfold lift at 1.
    rewrite Hv. eexists. split; [reflexivity |]. now left.
Qed.

(** X15.  Every response is either a 200 without an [error] field or a
    400, 404 or 500 whose [error] field is a string.  The three routes
    that take no body always answer 200; 404 comes from [get_transcript]
    alone. *)
Theorem status_and_error_field (r : route) (request : Request) (s : State) :
  exists resp,
    fst (dispatch r request s) = inr resp
    /\ ((status resp = 200 /\ field "error" resp = None)
        \/ ((status resp = 400 \/ status resp = 404 \/ status resp = 500)
            /\ exists msg, field "error" resp = Some (VStr msg)))
    /\ (r <> PostAsk -> r <> PostTranscript -> status resp = 200)
    /\ (status resp = 404 -> r = PostTranscript).
Proof.
  destruct r; cbn [dispatch].
  - eexists. split; [reflexivity |]. split; [left; now split |].
    split; [reflexivity | discriminate].
  - destruct (ask_tutor_responses request s)
      as (resp & -> & [-> | [[e ->] | (a & t & c & b & ->)]]);
      eexists; (split; [reflexivity |]).
    + split; [right; split; [now left | eexists; reflexivity] |].
      split; [intros H; now destruct H | discriminate].
    + split; [right; split; [now right; right | eexists; reflexivity] |].
      split; [intros H; now destruct H | discriminate].
    + split; [left; now split |].
      split; [intros H; now destruct H | discriminate].
  - destruct (get_transcript_responses request s)
      as (resp & -> & [-> | [-> | [[e ->] | [t ->]]]]);
      eexists; (split; [reflexivity |]).
    + split; [right; split; [now left | eexists; reflexivity] |].
      split; [intros _ H; now destruct H | reflexivity].
    + split; [right; split; [now right; left | eexists; reflexivity] |].
      split; [intros _ H; now destruct H | reflexivity].
    + split; [right; split; [now right; right | eexists; reflexivity] |].
      split; [intros _ H; now destruct H | reflexivity].
    + split; [left; now split |].
      split; [intros _ H; now destruct H | reflexivity].
  - eexists. split; [reflexivity |]. split; [left; now split |].
    split; [reflexivity | discriminate].
  - eexists. split; [reflexivity |]. split; [left; now split |].
    split; [reflexivity | discriminate].
Qed.

(** X16.  [health_check] answers 200 and changes nothing.  The number of
    cached videos it reports is the one [cache_status] reports in the same
    state; it is 0 right after [clear_cache], and one more after a lookup
    that fetched a transcript. *)
Theorem health_check_counts (s : State) :
  (exists resp n,
      health_check s = (inr resp, s)
      /\ status resp = 200
      /\ field "cached_videos" resp = Some (VInt n)
      /\ exists status_resp,
          cache_status s = (inr status_resp, s)
          /\ field "cached_videos" status_resp = Some (VInt n))
  /\ (exists resp,
         fst (health_check (snd (clear_cache s))) = inr resp
         /\ field "cached_videos" resp = Some (VInt 0))
  /\ (forall video_id k entries x,
         key_of video_id = Some k ->
         dict_find k (transcript_cache s) = None ->
         get_transcript_api (ext s) video_id = (inr entries, x) ->
         exists resp,
           fst (health_check (snd (get_cached_transcript video_id s)))
           = inr resp
           /\ field "cached_videos" resp
              = Some (VInt (Z.of_nat (length (transcript_cache s)) + 1))).
Proof.
  split; [| split].
  - eexists. exists (Z.of_nat (length (transcript_cache s))).
    split; [reflexivity |]. split; [reflexivity |]. split; [reflexivity |].
    eexists. split; [reflexivity |].
    cbn. unfold dict_keys. now rewrite length_map.
  - eexists. split; reflexivity.
  - intros video_id k entries x Hk Hf Ha.
    rewrite (lookup_fetch_ok _ _ _ _ _ Hk Hf Ha). cbn [snd].
    eexists. split; [reflexivity |].
    cbn. rewrite (dict_store_absent _ _ _ _ Hf), length_app.
    cbn [length]. f_equal. f_equal. lia.
Qed.

End Responses.

(** * The further properties at concrete inputs *)

(** A first question about the demo video, asked while another video is
    cached. *)
Lemma entries_persist_witness :
  (exists added,
      transcript_cache
        (snd (dispatch PostAsk (post (VDict rick_body))
                (holding [(VStr "abc12345678", "old")])))
      = [(VStr "abc12345678", "old")] ++ added)
  /\ cache_size
       (snd (dispatch PostAsk (post (VDict rick_body))
               (holding [(VStr "abc12345678", "old")])))
     <= 1 + 1
  /\ extends [(VStr "abc12345678", "old")]
       (transcript_cache
          (snd (dispatch PostAsk (post (VDict rick_body))
                  (holding [(VStr "abc12345678", "old")])))).
Proof.
  apply (entries_persist (W := demo_world) PostAsk (post (VDict rick_body))
           (holding [(VStr "abc12345678", "old")])).
  discriminate.
Defined.

(** The state after a first question about the demo video. *)
Lemma reachable_keys_fetched_witness :
  keys_fetched (snd (dispatch PostAsk (post (VDict rick_body)) initial))
  /\ Forall (fun key => key_of key <> None)
       (dict_keys
          (transcript_cache
             (snd (dispatch PostAsk (post (VDict rick_body)) initial))))
  /\ NoDup
       (map key_of
          (dict_keys
             (transcript_cache
                (snd (dispatch PostAsk (post (VDict rick_body)) initial))))).
Proof.
  apply (reachable_keys_fetched (W := demo_world)).
  exact (reachable_request (W := demo_world) _ PostAsk _
           (reachable_start (W := demo_world) [] tt)).
Defined.

(** A question about a cached video with a short transcript. *)
Lemma short_transcript_sent_whole_witness :
  exists context,
    llm_calls
      (trace
         (snd (ask_tutor (post (VDict rick_body))
                 (holding [(VStr "dQw4w9WgXcQ", "never gonna give you up")]))))
    = [] ++ [llm_request
               (user_content (W := demo_world) context
                  (VStr "What is this about?"))]
    /\ (forall t,
           Some "never gonna give you up" = Some t ->
           0 < String.length t -> String.length t <= 3000 ->
           context = (basic_context (W := demo_world) (VStr "") (VInt 0) ++ nl
                      ++ "Transcript: " ++ t ++ "...")%string)
    /\ (Some "never gonna give you up" = None
        \/ Some "never gonna give you up" = Some "" ->
        context = basic_context (W := demo_world) (VStr "") (VInt 0)).
Proof.
  exact (short_transcript_sent_whole (W := demo_world)
           (post (VDict rick_body)) rick_body
           (holding [(VStr "dQw4w9WgXcQ", "never gonna give you up")])
           _ (Some "never gonna give you up")
           eq_refl eq_refl eq_refl eq_refl).
Defined.

(** A question without a video. *)
Lemma ask_without_video_id_witness :
  fetched (trace (snd (ask_tutor (post (VDict question_body)) initial))) = []
  /\ fst (ask_tutor (post (VDict question_body)) initial)
     = inr (answered "An answer." (VStr "") (VInt 0) false).
Proof.
  destruct (ask_without_video_id (W := demo_world)
              (post (VDict question_body)) question_body initial
              eq_refl eq_refl eq_refl)
    as (Hf & _ & _ & Hok & _).
  split; [exact Hf | exact (Hok "An answer." [] tt eq_refl)].
Defined.

(** A prefetch with the empty object as body. *)
Lemma get_transcript_without_video_id_witness :
  fetched (trace (snd (get_transcript (post (VDict [])) initial))) = []
  /\ get_transcript (W := demo_world) (post (VDict [])) initial
     = (inr video_id_required, initial).
Proof.
  destruct (get_transcript_without_video_id (W := demo_world)
              (post (VDict [])) initial) as (Hf & _ & H400).
  - intros d v Hj Hv. injection Hj as <-. discriminate Hv.
  - split; [exact Hf | exact (H400 [] eq_refl)].
Defined.

(** A list as video id. *)
Lemma unhashable_video_id_is_500_witness :
  get_transcript (W := demo_world) (post (VDict list_id_body)) initial
  = (inr (transcript_error (unhashable (VList [VStr "dQw4w9WgXcQ"]))),
     emit (Print "Error in get_transcript: unhashable type: 'list'") initial)
  /\ llm_calls (trace (snd (ask_tutor (post (VDict list_id_body)) initial)))
     = [].
Proof.
  destruct (unhashable_video_id_is_500 (W := demo_world)
              (post (VDict list_id_body)) list_id_body initial
              eq_refl eq_refl eq_refl)
    as (Ht & _ & Hl & _).
  split; [exact Ht | exact Hl].
Defined.

(** A first prefetch of the demo video: 23 characters, 22 of the two
    segments and one space. *)
Lemma get_transcript_reports_length_witness :
  exists s1,
    get_transcript (W := demo_world) (post (VDict rick_body)) initial
    = (inr (transcript_cached "never gonna give you up"), s1)
    /\ field "length" (transcript_cached "never gonna give you up")
       = Some (VInt 23)
    /\ dict_find (KStr "dQw4w9WgXcQ") (transcript_cache s1)
       = Some "never gonna give you up"
    /\ fetched (trace s1) = [VStr "dQw4w9WgXcQ"].
Proof.
  refine (proj1 (get_transcript_reports_length (W := demo_world)
                   (post (VDict rick_body)) rick_body initial
                   (KStr "dQw4w9WgXcQ") eq_refl eq_refl eq_refl)
            _ tt eq_refl eq_refl _).
  discriminate.
Defined.


(** Prefetch, then ask, about the demo video. *)
Lemma prefetch_then_ask_witness :
  exists s1,
    get_transcript (W := demo_world) (post (VDict rick_body)) initial
    = (inr (transcript_cached "never gonna give you up"), s1)
    /\ fetched (trace (snd (ask_tutor (post (VDict rick_body)) s1)))
       = fetched (trace s1)
    /\ fst (ask_tutor (post (VDict rick_body)) s1)
       = inr (answered "An answer." (VStr "") (VInt 0) true).
Proof.
  destruct (prefetch_then_ask (W := demo_world)
              (post (VDict rick_body)) (post (VDict rick_body))
              rick_body rick_body initial (KStr "dQw4w9WgXcQ") _ tt
              eq_refl eq_refl eq_refl eq_refl eq_refl eq_refl eq_refl)
    as (s1 & R1 & Hf & _ & Hok).
  - discriminate.
  - reflexivity.
  - exists s1. split; [exact R1 |]. split; [exact Hf |].
    exact (Hok "An answer." [] tt eq_refl).
Defined.

(** Two lookups in the flaky world. *)
Lemma retry_after_failure_witness :
  exists s1 s2,
    get_cached_transcript (W := flaky_world) (VStr "dQw4w9WgXcQ") initial_flaky
    = (inr None, s1)
    /\ get_cached_transcript (VStr "dQw4w9WgXcQ") s1
       = (inr (Some "hello world"), s2)
    /\ dict_find (KStr "dQw4w9WgXcQ") (transcript_cache s2)
       = Some "hello world"
    /\ fetched (trace s2) = [VStr "dQw4w9WgXcQ"; VStr "dQw4w9WgXcQ"].
Proof.
  exact (retry_after_failure (W := flaky_world) (VStr "dQw4w9WgXcQ")
           (KStr "dQw4w9WgXcQ") initial_flaky _ 1 2 _
           eq_refl eq_refl eq_refl eq_refl).
Defined.

(** A first question about the demo video while the LLM is down. *)
Lemma llm_failure_keeps_transcript_witness :
  exists s',
    ask_tutor (W := offline_world) (post (VDict rick_body)) initial_offline
    = (inr (ask_error (Exn "APIConnectionError" "Connection error.")), s')
    /\ dict_find (KStr "dQw4w9WgXcQ") (transcript_cache s')
       = Some "never gonna give you up"
    /\ fetched (trace s') = [VStr "dQw4w9WgXcQ"]
    /\ fetched (trace (snd (get_cached_transcript (VStr "dQw4w9WgXcQ") s')))
       = fetched (trace s').
Proof.
  exact (llm_failure_keeps_transcript (W := offline_world)
           (post (VDict rick_body)) rick_body initial_offline
           (KStr "dQw4w9WgXcQ") _ tt tt _
           eq_refl eq_refl eq_refl eq_refl eq_refl eq_refl eq_refl).
Defined.
